(** * DaanaRx backend: drug service and lot / QR code grammar

    A shallow embedding of [drugService] (normalizeNDC, searchDrugs,
    searchDrugByNDC, getOrCreateDrug, searchMedicationsByName) and of the
    QR code utilities (generateQRCode, parseDosage, validateLotCode),
    followed by the properties relating them to the written specification.

    Conventions.
    - A JavaScript string is a [string] of one-byte characters, its code
      units, all below 256. The classes of digits, letters and white space
      are those of JavaScript; the case conversions are those of ASCII,
      which are the ones of JavaScript on ASCII text. A property that
      depends on the text being of such characters is stated of ASCII text
      ([Spec.isAscii]).
    - A JavaScript number is an integer ([Z]) or an exact rational ([Q]);
      a property that depends on its decimal form or on its rounding says
      for which numbers it holds ([Spec.printable], [Spec.exactDouble]).
    - A value that may be [null] or [undefined] is an [option].
    - A function that may throw returns a [Completion]. *)

From Stdlib Require Import Ascii QArith.
From stdpp Require Import base tactics option list strings gmap sorting pretty.

Local Open Scope Z_scope.

(** ** JavaScript strings *)

Module JS.

Definition code (c : ascii) : N := N_of_ascii c.

Definition inRange (lo hi : N) (c : ascii) : bool :=
  ((lo <=? code c) && (code c <=? hi))%N.

(** [0-9], [A-Z], [a-z] *)
Definition isDigit : ascii -> bool := inRange 48 57.
Definition isUpper : ascii -> bool := inRange 65 90.
Definition isLower : ascii -> bool := inRange 97 122.
Definition isLetter (c : ascii) : bool := isUpper c || isLower c.
Definition isAlnum (c : ascii) : bool := isLetter c || isDigit c.

(** The white space trimmed by [String.prototype.trim] and matched by [\s]:
    TAB, LF, VT, FF, CR, SPACE and NO-BREAK SPACE, which are all the white
    space below 256. *)
Definition isSpace (c : ascii) : bool :=
  inRange 9 13 c || (code c =? 32)%N || (code c =? 160)%N.

Definition isChar (d c : ascii) : bool := (code c =? code d)%N.

(** [toUpperCase] and [toLowerCase] of an ASCII character. *)
Definition upperChar (c : ascii) : ascii :=
  if isLower c then ascii_of_N (code c - 32) else c.
Definition lowerChar (c : ascii) : ascii :=
  if isUpper c then ascii_of_N (code c + 32) else c.

Fixpoint map (f : ascii -> ascii) (s : string) : string :=
  match s with
  | EmptyString => EmptyString
  | String c r => String (f c) (map f r)
  end.

Fixpoint filter (p : ascii -> bool) (s : string) : string :=
  match s with
  | EmptyString => EmptyString
  | String c r => if p c then String c (filter p r) else filter p r
  end.

Definition toUpperCase : string -> string := map upperChar.
Definition toLowerCase : string -> string := map lowerChar.

Definition length (s : string) : Z := Z.of_nat (String.length s).

Definition isEmpty (s : string) : bool :=
  match s with EmptyString => true | _ => false end.

(** Longest prefix whose characters satisfy [p], and what follows it. *)
Fixpoint span (p : ascii -> bool) (s : string) : string * string :=
  match s with
  | EmptyString => (EmptyString, EmptyString)
  | String c r =>
      if p c then let '(a, b) := span p r in (String c a, b)
      else (EmptyString, s)
  end.

Definition trimStart (s : string) : string := snd (span isSpace s).

Fixpoint trimEnd (s : string) : string :=
  match s with
  | EmptyString => EmptyString
  | String c r =>
      let t := trimEnd r in
      if isSpace c && isEmpty t then EmptyString else String c t
  end.

Definition trim (s : string) : string := trimEnd (trimStart s).

Fixpoint startsWith (s t : string) : bool :=
  match t, s with
  | EmptyString, _ => true
  | String d t', String c s' => isChar d c && startsWith s' t'
  | String _ _, EmptyString => false
  end.

(** [s.includes(t)] *)
Fixpoint includes (s t : string) : bool :=
  startsWith s t ||
  match s with
  | EmptyString => false
  | String _ r => includes r t
  end.

(** [s.substring(0, n)] *)
Fixpoint substring0 (n : nat) (s : string) : string :=
  match n, s with
  | S m, String c r => String c (substring0 m r)
  | _, _ => EmptyString
  end.

Fixpoint drop (n : nat) (s : string) : string :=
  match n, s with
  | S m, String _ r => drop m r
  | _, _ => s
  end.

(** [s.slice(-n)] *)
Definition sliceLast (n : nat) (s : string) : string :=
  drop (String.length s - n) s.

Fixpoint repeat (c : ascii) (n : nat) : string :=
  match n with
  | O => EmptyString
  | S m => String c (repeat c m)
  end.

Definition padStart (n : nat) (c : ascii) (s : string) : string :=
  repeat c (n - String.length s) +:+ s.
Definition padEnd (n : nat) (c : ascii) (s : string) : string :=
  s +:+ repeat c (n - String.length s).

(** [s.split(d)[0]] *)
Definition splitFirst (d : ascii) (s : string) : string :=
  fst (span (fun c => negb (isChar d c)) s).

(** [String(n)] for an integer [n] *)
Definition ofInt (n : Z) : string := pretty n.

(** [a || b] on strings: the empty string is falsy. *)
Definition orElse (a b : string) : string := if isEmpty a then b else a.

(** Truthiness of an optional string: [null], [undefined] and the empty
    string are falsy. *)
Definition truthy (o : option string) : option string :=
  match o with
  | Some s => if isEmpty s then None else Some s
  | None => None
  end.

End JS.

(** ** Outcome of a call that may throw *)

Inductive Thrown : Type :=
  | TypeError                  (* a property read on [null] *)
  | Error (message : string).  (* [throw new Error(message)] *)

Inductive Completion (A : Type) : Type :=
  | Return (a : A)
  | Throw (e : Thrown).
Arguments Return {A} a.
Arguments Throw {A} e.

Definition bind {A B} (m : Completion A) (k : A -> Completion B) : Completion B :=
  match m with
  | Return a => k a
  | Throw e => Throw e
  end.

Notation "'let*' x ':=' m 'in' k" := (bind m (fun x => k))
  (at level 10, x name, m at level 100, k at level 200, only parsing).

(** [o.m(...)] where [o] may be [null] *)
Definition deref {A} (o : option A) : Completion A :=
  match o with
  | Some a => Return a
  | None => Throw TypeError
  end.

(** ** QR code utilities *)

Module QRCode.

(** The local calendar fields read from a [Date]. *)
Record JSDate := {
  getFullYear : Z;
  getMonth : Z;      (* 0 .. 11 *)
  getDate : Z        (* 1 .. 31 *)
}.

Definition dateStr (date : JSDate) : string :=
  let month := JS.padStart 2 "0" (JS.ofInt (getMonth date + 1)) in
  let day := JS.padStart 2 "0" (JS.ofInt (getDate date)) in
  let year := JS.sliceLast 2 (JS.ofInt (getFullYear date)) in
  month +:+ day +:+ year.

Definition medCode (medicationName : string) : string :=
  JS.padEnd 4 "X"
    (JS.toUpperCase (JS.substring0 4 (JS.filter JS.isAlnum medicationName))).

Definition doseNum (dosage : string) : string :=
  JS.substring0 2
    (JS.padStart 2 "0"
       (JS.splitFirst "."
          (JS.filter (fun c => JS.isDigit c || JS.isChar "." c) dosage))).

(** The sequence number is an integer, which [String] prints digit for
    digit (below 2^53). *)
Definition generateQRCode (lotCode : string) (date : JSDate)
    (medicationName dosage : string) (sequence : option Z) : string :=
  let baseCode :=
    JS.toUpperCase lotCode +:+ "-" +:+ dateStr date +:+ "-" +:+
    medCode medicationName +:+ "-" +:+ doseNum dosage in
  match sequence with
  | Some n =>
      if 0 <? n then baseCode +:+ "-" +:+ JS.padStart 2 "0" (JS.ofInt n)
      else baseCode
  | None => baseCode
  end.

(** [lotCode[1]?.toUpperCase()] *)
Definition sideOf (lotCode : string) : option ascii :=
  match lotCode with
  | String _ (String c _) => Some (JS.upperChar c)
  | _ => None
  end.

Definition isLR (side : option ascii) : bool :=
  match side with
  | Some c => JS.isChar "L" c || JS.isChar "R" c
  | None => false
  end.

(** [/^[A-Z]/.test(s)] *)
Definition startsUpper (s : string) : bool :=
  match s with
  | String c _ => JS.isUpper c
  | EmptyString => false
  end.

Definition validateLotCode (lotCode : string) (requireLocation : bool) : bool :=
  if JS.isEmpty lotCode then false
  else if (JS.length lotCode <? 1) || (2 <? JS.length lotCode) then false
  else if negb (startsUpper (JS.toUpperCase lotCode)) then false
  else if requireLocation && negb (JS.length lotCode =? 2) then false
  else if requireLocation && negb (isLR (sideOf lotCode)) then false
  else if (JS.length lotCode =? 2) && negb (isLR (sideOf lotCode)) then false
  else true.

(** [(\d+(?:\.\d+)?)] at the start of [s]: the numeral matched and the text
    after it.  The classes of a digit and of [.] are disjoint, so the greedy
    reading below is the only way the pattern can go on to succeed. *)
Definition matchNumeral (s : string) : option (string * string) :=
  let '(int, r) := JS.span JS.isDigit s in
  if JS.isEmpty int then None
  else
    match r with
    | String c r' =>
        let '(frac, r'') := JS.span JS.isDigit r' in
        if JS.isChar "." c && negb (JS.isEmpty frac)
        then Some (int +:+ String c frac, r'')
        else Some (int, r)
    | EmptyString => Some (int, r)
    end.

(** [/^(\d+(?:\.\d+)?)\s*([a-zA-Z/]+)?$/]: groups 1 and 2, the second
    [undefined] when it took no part in the match. *)
Definition matchPrimary (s : string) : option (string * option string) :=
  match matchNumeral s with
  | None => None
  | Some (num, r) =>
      let r1 := snd (JS.span JS.isSpace r) in
      let '(unit, r2) :=
        JS.span (fun c => JS.isLetter c || JS.isChar "/" c) r1 in
      if JS.isEmpty r2
      then Some (num, if JS.isEmpty unit then None else Some unit)
      else None
  end.

(** [/^(\d+(?:\.\d+)?)\s*([a-zA-Z]+)/]: groups 1 and 2. *)
Definition matchComplex (s : string) : option (string * string) :=
  match matchNumeral s with
  | None => None
  | Some (num, r) =>
      let r1 := snd (JS.span JS.isSpace r) in
      let unit := fst (JS.span JS.isLetter r1) in
      if JS.isEmpty unit then None else Some (num, unit)
  end.

Fixpoint digitsValue (acc : N) (s : string) : N :=
  match s with
  | EmptyString => acc
  | String c r => digitsValue (10 * acc + (JS.code c - 48))%N r
  end.

(** [parseFloat] on a numeral [d+] or [d+.d+], as the exact decimal value
    (the rounding to a double is not modelled). *)
Definition parseFloat (num : string) : Q :=
  let '(int, r) := JS.span JS.isDigit num in
  let frac := JS.drop 1 r in
  Qred (Z.of_N (digitsValue 0 (int +:+ frac))
        # Z.to_pos (10 ^ Z.of_nat (String.length frac))).

Record Dosage := { strength : Q; strengthUnit : string }.

Definition parseDosage (dosage : string) : Dosage :=
  let cleanDosage := JS.trim dosage in
  match matchPrimary cleanDosage with
  | Some (m1, m2) =>
      {| strength := parseFloat m1;
         strengthUnit := match JS.truthy m2 with Some u => u | None => "unit" end |}
  | None =>
      match matchComplex cleanDosage with
      | Some (m1, m2) => {| strength := parseFloat m1; strengthUnit := m2 |}
      | None => {| strength := 0; strengthUnit := "unit" |}
      end
  end.

End QRCode.

(** ** Drug service *)

Module DrugService.

(** What the service takes from its host: the numbers of JavaScript and the
    operators of the store.  [Num] is the type of a drug strength,
    [numToString] its rendering in a template literal,
    [localeCompare] is [String.prototype.localeCompare] and
    [ilike value pattern] is the ILIKE operator of the store. *)
Class Host := {
  Num : Type;
  Num_eq_dec :: EqDecision Num;
  numToString : Num -> string;
  localeCompare : string -> string -> Z;
  ilike : string -> string -> bool;
}.

Section Service.
Context `{Host}.

(** A row of table [drugs].  The service reads [medication_name],
    [strength_unit] and [form] as strings; [generic_name] and [ndc_id] may
    be [null]. *)
Record DrugRow := {
  drug_id : string;
  medication_name : string;
  generic_name : option string;
  strength : Num;
  strength_unit : string;
  ndc_id : option string;      (* nullable since migration 001 *)
  form : string
}.

(** A row of table [units] joined to its drug ([drug:drugs (...)]). *)
Record UnitRow := {
  unit_id : string;
  clinic_id : string;
  available_quantity : Z;
  drug : option DrugRow
}.

Record DrugSearchResult := {
  drugId : string;
  medicationName : string;
  genericName : option string;
  strengthOf : Num;
  strengthUnit : string;
  ndcId : option string;
  formOf : string;
  inInventory : bool
}.

(** The fields given to [.insert({...})]. *)
Record DrugInsert := {
  ins_medication_name : string;
  ins_generic_name : string;
  ins_strength : Num;
  ins_strength_unit : string;
  ins_ndc_id : option string;
  ins_form : string
}.

(** The store behind [supabaseServer]: its two tables in the order in which
    it returns their rows, whether reading each of them succeeds, how it reads
    the text of an [.or(...)] filter, and how it answers an insert (the error
    message, or the identifier it generates). *)
Record Store := {
  units : list UnitRow;
  units_readable : bool;
  drugs : list DrugRow;
  drugs_readable : bool;
  orFilter : string -> option (DrugRow -> bool);
  insertAnswer : DrugInsert -> string + string
}.

(** The [data] of a read: [null] when the request fails. *)
Definition response {A} (readable : bool) (rows : list A) : option (list A) :=
  if readable then Some rows else None.

(** [.limit(n)] *)
Definition limit {A} (n : nat) (data : option (list A)) : option (list A) :=
  take n <$> data.

(** [.single()]: the row when the request yields exactly one, else [null]. *)
Definition single {A} (data : option (list A)) : option A :=
  match data with
  | Some [row] => Some row
  | _ => None
  end.

(** [from('units').select(...).eq('clinic_id', c).gt('available_quantity', 0)] *)
Definition inStock (clinicId : string) (u : UnitRow) : bool :=
  bool_decide (clinic_id u = clinicId) && (0 <? available_quantity u).

Definition selectUnits (s : Store) (clinicId : string) : option (list UnitRow) :=
  response (units_readable s) (filter (fun u => inStock clinicId u = true) (units s)).

(** [from('drugs').select('*').or(text)] *)
Definition selectDrugsOr (s : Store) (text : string) : option (list DrugRow) :=
  match orFilter s text with
  | Some p => response (drugs_readable s) (filter (fun d => p d = true) (drugs s))
  | None => None
  end.

(** [from('drugs').select(...).eq('ndc_id', ndc)] *)
Definition selectDrugsByNdc (s : Store) (ndc : string) : option (list DrugRow) :=
  response (drugs_readable s)
    (filter (fun d => ndc_id d = Some ndc) (drugs s)).

(** [from('drugs').select('drug_id').ilike('medication_name', name)
      .eq('strength', x).eq('strength_unit', u).eq('form', f)] *)
Definition similarTo (name : string) (x : Num) (u f : string) (d : DrugRow) : bool :=
  ilike (medication_name d) name && bool_decide (strength d = x) &&
  bool_decide (strength_unit d = u) && bool_decide (form d = f).

Definition selectDrugsSimilar (s : Store) (name : string) (x : Num) (u f : string)
  : option (list DrugRow) :=
  response (drugs_readable s)
    (filter (fun d => similarTo name x u f d = true) (drugs s)).

Definition normalizeNDC (ndc : string) : string := JS.filter JS.isDigit ndc.

Definition toResult (d : DrugRow) (inInv : bool) : DrugSearchResult :=
  {| drugId := drug_id d;
     medicationName := medication_name d;
     genericName := generic_name d;
     strengthOf := strength d;
     strengthUnit := strength_unit d;
     ndcId := ndc_id d;
     formOf := form d;
     inInventory := inInv |}.

(** The two accumulators of a search: the keys seen and the results pushed. *)
Definition Acc (K : Type) `{Countable K} : Type := gset K * list DrugSearchResult.

Definition push {K} `{Countable K} (key : K) (r : DrugSearchResult) (acc : Acc K) : Acc K :=
  if bool_decide (key ∈ acc.1) then acc
  else ({[ key ]} ∪ acc.1, acc.2 ++ [r]).

(** *** searchDrugs *)

(** Lines 62-65: the two matches of a unit's drug against the query. *)
Definition inventoryMatch (normalizedQuery normalizedNDC : string) (d : DrugRow)
  : Completion bool :=
  let* ndc := deref (ndc_id d) in
  let ndcMatch := JS.includes (normalizeNDC ndc) normalizedNDC in
  let* nameMatch :=
    if JS.includes (JS.toLowerCase (medication_name d)) (JS.toLowerCase normalizedQuery)
    then Return true
    else (let* generic := deref (generic_name d) in
          Return (JS.includes (JS.toLowerCase generic) (JS.toLowerCase normalizedQuery))) in
  Return (ndcMatch || nameMatch).

(** Lines 58-80: the loop over the units in stock. *)
Fixpoint inventoryLoop (normalizedQuery normalizedNDC : string)
    (inventoryDrugs : list UnitRow) (acc : Acc (option string))
  : Completion (Acc (option string)) :=
  match inventoryDrugs with
  | [] => Return acc
  | unit :: rest =>
      match drug unit with
      | None => inventoryLoop normalizedQuery normalizedNDC rest acc
      | Some d =>
          let* matched := inventoryMatch normalizedQuery normalizedNDC d in
          inventoryLoop normalizedQuery normalizedNDC rest
            (if matched then push (ndc_id d) (toResult d true) acc else acc)
      end
  end.

(** Lines 94-108: the loop over the rows of the catalog. *)
Definition catalogLoop (allDrugs : list DrugRow) (acc : Acc (option string))
  : Acc (option string) :=
  foldl (fun acc d => push (ndc_id d) (toResult d false) acc) acc allDrugs.

Definition searchDrugsFilter (normalizedQuery normalizedNDC : string) : string :=
  "ndc_id.ilike.%" +:+ JS.orElse normalizedNDC normalizedQuery +:+
  "%,medication_name.ilike.%" +:+ normalizedQuery +:+
  "%,generic_name.ilike.%" +:+ normalizedQuery +:+ "%".

Definition searchDrugs (s : Store) (query clinicId : string)
  : Completion (list DrugSearchResult) :=
  if JS.isEmpty query || (JS.length (JS.trim query) <? 2) then Return []
  else
    let normalizedQuery := JS.trim query in
    let normalizedNDC := normalizeNDC normalizedQuery in
    let* acc1 :=
      match selectUnits s clinicId with
      | Some inventoryDrugs =>
          inventoryLoop normalizedQuery normalizedNDC inventoryDrugs (∅, [])
      | None => Return (∅, [])
      end in
    let acc2 :=
      match limit 20 (selectDrugsOr s (searchDrugsFilter normalizedQuery normalizedNDC)) with
      | Some allDrugs => catalogLoop allDrugs acc1
      | None => acc1
      end in
    Return (take 10 acc2.2).

(** *** searchDrugByNDC *)

Definition searchDrugByNDC (s : Store) (ndc : string) (clinicId : option string)
  : Completion (option DrugSearchResult) :=
  let normalizedNDC := normalizeNDC ndc in
  let* fromInventory :=
    match JS.truthy clinicId with
    | Some c =>
        let inventoryUnit := single (limit 1 (selectUnits s c)) in
        match inventoryUnit ≫= drug with
        | Some d =>
            let* ndc_d := deref (ndc_id d) in
            if bool_decide (normalizeNDC ndc_d = normalizedNDC)
            then Return (Some (toResult d true))
            else Return None
        | None => Return None
        end
    | None => Return None
    end in
  match fromInventory with
  | Some r => Return (Some r)
  | None =>
      match single (selectDrugsByNdc s ndc) with
      | Some d => Return (Some (toResult d false))
      | None => Return None
      end
  end.

(** *** getOrCreateDrug *)

Record DrugData := {
  d_medicationName : string;
  d_genericName : option string;
  d_strength : Num;
  d_strengthUnit : string;
  d_ndcId : option string;
  d_form : string
}.

Definition newRow (drugData : DrugData) : DrugInsert :=
  {| ins_medication_name := d_medicationName drugData;
     ins_generic_name :=
       match JS.truthy (d_genericName drugData) with
       | Some g => g
       | None => d_medicationName drugData
       end;
     ins_strength := d_strength drugData;
     ins_strength_unit := d_strengthUnit drugData;
     ins_ndc_id := JS.truthy (d_ndcId drugData);
     ins_form := d_form drugData |}.

Definition inserted (id : string) (r : DrugInsert) : DrugRow :=
  {| drug_id := id;
     medication_name := ins_medication_name r;
     generic_name := Some (ins_generic_name r);
     strength := ins_strength r;
     strength_unit := ins_strength_unit r;
     ndc_id := ins_ndc_id r;
     form := ins_form r |}.

Definition withDrug (s : Store) (d : DrugRow) : Store :=
  {| units := units s; units_readable := units_readable s;
     drugs := drugs s ++ [d]; drugs_readable := drugs_readable s;
     orFilter := orFilter s; insertAnswer := insertAnswer s |}.

(** Lines 200-210: the lookup by NDC, made only for a supplied NDC. *)
Definition existingDrug (s : Store) (drugData : DrugData) : option DrugRow :=
  match JS.truthy (d_ndcId drugData) with
  | Some ndc => single (selectDrugsByNdc s ndc)
  | None => None
  end.

(** Lines 214-221: the lookup by name, strength, unit and form. *)
Definition similarDrug (s : Store) (drugData : DrugData) : option DrugRow :=
  single (selectDrugsSimilar s (d_medicationName drugData) (d_strength drugData)
            (d_strengthUnit drugData) (d_form drugData)).

(** The identifier returned, and the store as the call leaves it. *)
Definition getOrCreateDrug (s : Store) (drugData : DrugData)
  : Completion string * Store :=
  match existingDrug s drugData with
  | Some d => (Return (drug_id d), s)
  | None =>
      match similarDrug s drugData with
      | Some d => (Return (drug_id d), s)
      | None =>
          match insertAnswer s (newRow drugData) with
          | inl message => (Throw (Error ("Failed to create drug: " +:+ message)), s)
          | inr id => (Return id, withDrug s (inserted id (newRow drugData)))
          end
      end
  end.

(** *** searchMedicationsByName *)

(** Lines 296 and 326: the deduplication key. *)
Definition medicationKey (d : DrugRow) : string :=
  JS.toLowerCase (medication_name d) +:+ "-" +:+ numToString (strength d) +:+
  "-" +:+ strength_unit d.

Definition nameMatch (normalizedQuery : string) (d : DrugRow) : bool :=
  JS.includes (JS.toLowerCase (medication_name d)) normalizedQuery ||
  match JS.truthy (generic_name d) with
  | Some g => JS.includes (JS.toLowerCase g) normalizedQuery
  | None => false
  end.

(** Lines 286-312. *)
Definition inventoryNameLoop (normalizedQuery : string)
    (inventoryDrugs : list UnitRow) (acc : Acc string) : Acc string :=
  foldl (fun acc unit =>
           match drug unit with
           | None => acc
           | Some d =>
               if nameMatch normalizedQuery d
               then push (medicationKey d) (toResult d true) acc
               else acc
           end) acc inventoryDrugs.

(** Lines 325-341. *)
Definition catalogNameLoop (allDrugs : list DrugRow) (acc : Acc string) : Acc string :=
  foldl (fun acc d => push (medicationKey d) (toResult d false) acc) acc allDrugs.

(** Lines 345-349: the comparator given to [sort]. *)
Definition compareResults (a b : DrugSearchResult) : Z :=
  if inInventory a && negb (inInventory b) then -1
  else if negb (inInventory a) && inInventory b then 1
  else localeCompare (medicationName a) (medicationName b).

(** [Array.prototype.sort] is stable, and for a consistent comparator every
    stable sort gives the same array: it is computed here by insertion, each
    element going before the first one it does not come after. *)
Fixpoint sortInsert {A} (cmp : A -> A -> Z) (x : A) (l : list A) : list A :=
  match l with
  | [] => [x]
  | y :: l' => if cmp x y <=? 0 then x :: l else y :: sortInsert cmp x l'
  end.

Definition sort {A} (cmp : A -> A -> Z) (l : list A) : list A :=
  foldr (sortInsert cmp) [] l.

Definition searchMedicationsFilter (normalizedQuery : string) : string :=
  "medication_name.ilike.%" +:+ normalizedQuery +:+
  "%,generic_name.ilike.%" +:+ normalizedQuery +:+ "%".

Definition searchMedicationsByName (s : Store) (query clinicId : string)
  : list DrugSearchResult :=
  if JS.isEmpty query || (JS.length (JS.trim query) <? 2) then []
  else
    let normalizedQuery := JS.toLowerCase (JS.trim query) in
    let acc1 :=
      match selectUnits s clinicId with
      | Some inventoryDrugs => inventoryNameLoop normalizedQuery inventoryDrugs (∅, [])
      | None => (∅, [])
      end in
    let acc2 :=
      match limit 30 (selectDrugsOr s (searchMedicationsFilter normalizedQuery)) with
      | Some allDrugs => catalogNameLoop allDrugs acc1
      | None => acc1
      end in
    take 15 (sort compareResults acc2.2).

End Service.
End DrugService.

(** ** A host and a store to run the service on

    Strengths are integers printed in decimal, [localeCompare] orders strings
    by character code ignoring case, ILIKE reads [%] and [_] as wild cards,
    and an [.or(...)] text is a comma-separated list of [column.ilike.pattern]
    clauses over the three text columns of the search. *)

Module Sample.
Import DrugService.

Fixpoint like (pattern s : string) : bool :=
  match pattern with
  | EmptyString => JS.isEmpty s
  | String p pattern' =>
      if JS.isChar "%" p then
        (fix anywhere (s : string) : bool :=
           like pattern' s ||
           match s with
           | EmptyString => false
           | String _ s' => anywhere s'
           end) s
      else
        match s with
        | EmptyString => false
        | String c s' => (JS.isChar "_" p || JS.isChar p c) && like pattern' s'
        end
  end.

Definition sampleIlike (value pattern : string) : bool :=
  like (JS.toLowerCase pattern) (JS.toLowerCase value).

Definition sign (c : comparison) : Z :=
  match c with Lt => -1 | Eq => 0 | Gt => 1 end.

Definition sampleCompare (a b : string) : Z :=
  sign (String.compare (JS.toLowerCase a) (JS.toLowerCase b)).

#[export] Instance sampleHost : Host := {|
  Num := Z;
  numToString := pretty;
  localeCompare := sampleCompare;
  ilike := sampleIlike
|}.

(** The pieces of [s] between the occurrences of [d]. *)
Fixpoint splitOn (d : ascii) (s : string) : list string :=
  match s with
  | EmptyString => [EmptyString]
  | String c r =>
      if JS.isChar d c then EmptyString :: splitOn d r
      else match splitOn d r with
           | piece :: pieces => String c piece :: pieces
           | [] => [String c EmptyString]
           end
  end.

Definition column (name : string) : option (DrugRow -> option string) :=
  if bool_decide (name = "ndc_id") then Some ndc_id
  else if bool_decide (name = "medication_name") then Some (fun d => Some (medication_name d))
  else if bool_decide (name = "generic_name") then Some generic_name
  else None.

Definition clause (text : string) : option (DrugRow -> bool) :=
  let '(name, r) := JS.span (fun c => negb (JS.isChar "." c)) text in
  let '(op, r') := JS.span (fun c => negb (JS.isChar "." c)) (JS.drop 1 r) in
  match column name with
  | Some get =>
      if bool_decide (op = "ilike")
      then Some (fun d => match get d with
                          | Some v => sampleIlike v (JS.drop 1 r')
                          | None => false
                          end)
      else None
  | None => None
  end.

Definition sampleOr (text : string) : option (DrugRow -> bool) :=
  (fun ps d => existsb (fun p => p d) ps) <$> mapM clause (splitOn "," text).

Definition drugRow (id name : string) (generic : option string) (x : Z)
    (unit : string) (ndc : option string) (f : string) : DrugRow :=
  {| drug_id := id; medication_name := name; generic_name := generic;
     strength := x; strength_unit := unit; ndc_id := ndc; form := f |}.

Definition unitRow (id clinic : string) (quantity : Z) (d : DrugRow) : UnitRow :=
  {| unit_id := id; clinic_id := clinic; available_quantity := quantity;
     drug := Some d |}.

Definition drugDataOf (name : string) (generic : option string) (x : Z)
    (unit : string) (ndc : option string) (f : string) : DrugData :=
  {| d_medicationName := name; d_genericName := generic; d_strength := x;
     d_strengthUnit := unit; d_ndcId := ndc; d_form := f |}.

Definition aspirin : DrugRow :=
  drugRow "d1" "Aspirin" (Some "acetylsalicylic acid") 81 "mg" (Some "11111-1111-11") "tablet".
Definition zinc : DrugRow :=
  drugRow "d2" "Zinc" (Some "zinc sulfate") 50 "mg" (Some "22222-2222-22") "tablet".
Definition amlodipine : DrugRow :=
  drugRow "d3" "Amlodipine" (Some "amlodipine besylate") 5 "mg" (Some "33333-3333-33") "tablet".
Definition saline : DrugRow :=
  drugRow "d4" "Saline" (Some "sodium chloride") 9 "mg/ml" None "solution".
Definition salineFlush : DrugRow :=
  drugRow "d5" "Saline Flush" (Some "sodium chloride") 9 "mg/ml" None "syringe".
Definition ointment : DrugRow :=
  drugRow "d6" "Zinc Oxide" None 20 "%" (Some "66666-6666-66") "ointment".

Definition store (us : list UnitRow) (ds : list DrugRow) : Store :=
  {| units := us; units_readable := true; drugs := ds; drugs_readable := true;
     orFilter := sampleOr;
     insertAnswer := fun r =>
       if JS.isEmpty (ins_medication_name r)
       then inl "null value in column medication_name"
       else inr ("new-" +:+ ins_medication_name r) |}.

(** A second row carrying the NDC of zinc. *)
Definition zincAgain : DrugRow :=
  drugRow "d7" "Zinc Gluconate" (Some "zinc") 50 "mg" (Some "22222-2222-22") "tablet".

Definition catalog : list DrugRow :=
  [aspirin; zinc; amlodipine; saline; salineFlush; ointment].

(** A clinic holding aspirin and zinc, with an empty lot of amlodipine. *)
Definition clinicStore : Store :=
  store [unitRow "u1" "clinic-1" 30 aspirin; unitRow "u2" "clinic-1" 12 zinc;
         unitRow "u3" "clinic-1" 0 amlodipine; unitRow "u4" "clinic-2" 7 amlodipine]
        catalog.

End Sample.

(** ** Notions used to state the properties *)

Module Spec.
Import QRCode DrugService.

(** Every character of [s] satisfies [p]. *)
Fixpoint allOf (p : ascii -> bool) (s : string) : bool :=
  match s with
  | EmptyString => true
  | String c r => p c && allOf p r
  end.

(** [s] begins with a character satisfying [p]. *)
Definition headIs (p : ascii -> bool) (s : string) : bool :=
  match s with
  | String c _ => p c
  | EmptyString => false
  end.

(** ASCII text: every character is below 128. *)
Definition isAsciiChar (c : ascii) : bool := (JS.code c <? 128)%N.
Definition isAscii (s : string) : bool := allOf isAsciiChar s.

(** [q] is a number of double precision: [m * 2 ^ e] with a significand of
    at most 53 bits and an exponent in range. [parseFloat] rounds its
    numeral to such a number, and returns the numeral's value when that is
    one. *)
Definition exactDouble (q : Q) : Prop :=
  exists m e : Z,
    Z.abs m < 2 ^ 53 /\ -1074 <= e <= 971 /\ (q == inject_Z m * 2 ^ e)%Q.

(** The decimal digit [n], and the two decimal digits of [n]. *)
Definition digitChar (n : Z) : ascii := ascii_of_N (48 + Z.to_N n).
Definition twoDigits (n : Z) : string :=
  String (digitChar (n / 10)) (String (digitChar (n mod 10)) "").

(** A sequence number that [String] prints digit for digit: an integer
    below 2^53. *)
Definition printable (sequence : option Z) : Prop :=
  forall n, sequence = Some n -> n < 2 ^ 53.

(** [a] is [s] up to its first [d], or all of [s] when [d] is not in it. *)
Definition upTo (d : ascii) (s a : string) : Prop :=
  allOf (fun c => negb (JS.isChar d c)) a = true /\
  (s = a \/ exists r, s = a +:+ String d r).

(** The first two characters of [ds]; after a [0] when it has one only, and
    [00] when it has none. *)
Definition firstTwo (ds : string) : string :=
  match ds with
  | EmptyString => "00"
  | String c EmptyString => String "0" (String c "")
  | String c1 (String c2 _) => String c1 (String c2 "")
  end.

(** A numeral of the dosage grammar: digits, or digits, a dot and digits. *)
Definition Numeral (num : string) : Prop :=
  exists int : string,
    allOf JS.isDigit int = true /\ int <> "" /\
    (num = int \/
     exists frac : string,
       allOf JS.isDigit frac = true /\ frac <> "" /\
       num = int +:+ "." +:+ frac).

(** [s] begins with the numeral [num], then white space, then the letters
    [unit], which end there. *)
Definition LeadingPair (s num unit : string) : Prop :=
  exists ws rest : string,
    Numeral num /\ allOf JS.isSpace ws = true /\
    allOf JS.isLetter unit = true /\ unit <> "" /\
    headIs JS.isLetter rest = false /\
    s = num +:+ ws +:+ unit +:+ rest.

(** [s] is the numeral [num], then white space, then the letters and
    slashes [unit], possibly none. *)
Definition WholeDosage (s num unit : string) : Prop :=
  exists ws : string,
    Numeral num /\ allOf JS.isSpace ws = true /\
    allOf (fun c => JS.isLetter c || JS.isChar "/" c) unit = true /\
    s = num +:+ ws +:+ unit.


(** [d] is the one row of [rows] that satisfies [P]: it is at some position,
    and no row at another position satisfies [P]. *)
Definition theOnly {A} (P : A -> Prop) (rows : list A) (d : A) : Prop :=
  exists i, rows !! i = Some d /\ P d /\
    forall j d', rows !! j = Some d' -> P d' -> j = i.

Section Results.
Context `{Host}.

(** The row [d] has the medication name of [drugData], read as an ILIKE
    pattern, and its strength, unit and form. *)
Definition similarRow (drugData : DrugData) (d : DrugRow) : Prop :=
  ilike (medication_name d) (d_medicationName drugData) = true /\
  strength d = d_strength drugData /\
  strength_unit d = d_strengthUnit drugData /\
  form d = d_form drugData.

(** The entries of [l] whose key is neither in [seen] nor carried by an
    earlier entry of [l], in the order of [l]. *)
Fixpoint keepFirst {K} `{Countable K} (key : DrugSearchResult -> K)
    (seen : gset K) (l : list DrugSearchResult) : list DrugSearchResult :=
  match l with
  | [] => []
  | r :: l' =>
      if bool_decide (key r ∈ seen) then keepFirst key seen l'
      else r :: keepFirst key ({[ key r ]} ∪ seen) l'
  end.

(** The loop that offers every entry of [l] to the result. *)
Definition pushAll {K} `{Countable K} (key : DrugSearchResult -> K)
    (acc : Acc K) (l : list DrugSearchResult) : Acc K :=
  foldl (fun acc r => push (key r) r acc) acc l.

(** [R] holds from every entry of [l] to every later one. *)
Definition ordered {A} (R : A -> A -> Prop) (l : list A) : Prop :=
  forall i j x y, (i < j)%nat -> l !! i = Some x -> l !! j = Some y -> R x y.

(** Once an entry out of the inventory appears, no later one is in it. *)
Definition group (a b : DrugSearchResult) : Prop :=
  inInventory a = false -> inInventory b = false.

Definition inventoryFirst : list DrugSearchResult -> Prop := ordered group.

(** Entries of equal inventory status are in the order of [localeCompare]
    on their medication names. *)
Definition byName (a b : DrugSearchResult) : Prop :=
  inInventory a = inInventory b ->
  localeCompare (medicationName a) (medicationName b) <= 0.

Definition sortedByName : list DrugSearchResult -> Prop := ordered byName.

(** A comparator that [sort] may rely on: total and transitive. *)
Definition consistent (cmp : string -> string -> Z) : Prop :=
  (forall a b, cmp a b <= 0 \/ cmp b a <= 0) /\
  (forall a b c, cmp a b <= 0 -> cmp b c <= 0 -> cmp a c <= 0).

Definition rowsOf {A} (data : option (list A)) : list A := default [] data.

Definition tooShort (query : string) : bool :=
  JS.isEmpty query || (JS.length (JS.trim query) <? 2).

(** The entries the two loops of [searchDrugs] offer to the result, in the
    order in which they offer them: the matching drugs of the units in stock,
    then the rows of the catalog. *)
Definition inventoryEntries (normalizedQuery normalizedNDC : string)
    (rows : list UnitRow) : list DrugSearchResult :=
  omap (fun u =>
          match drug u with
          | Some d =>
              match inventoryMatch normalizedQuery normalizedNDC d with
              | Return true => Some (toResult d true)
              | _ => None
              end
          | None => None
          end) rows.

Definition catalogEntries (rows : list DrugRow) : list DrugSearchResult :=
  (fun d => toResult d false) <$> rows.

Definition searchDrugsEntries (s : Store) (query clinicId : string)
  : list DrugSearchResult :=
  if tooShort query then []
  else
    let q := JS.trim query in
    let n := normalizeNDC q in
    inventoryEntries q n (rowsOf (selectUnits s clinicId)) ++
    catalogEntries (rowsOf (limit 20 (selectDrugsOr s (searchDrugsFilter q n)))).

(** The same for [searchMedicationsByName]. *)
Definition inventoryNameEntries (normalizedQuery : string) (rows : list UnitRow)
  : list DrugSearchResult :=
  omap (fun u =>
          match drug u with
          | Some d => if nameMatch normalizedQuery d then Some (toResult d true) else None
          | None => None
          end) rows.

Definition searchMedicationsEntries (s : Store) (query clinicId : string)
  : list DrugSearchResult :=
  if tooShort query then []
  else
    let q := JS.toLowerCase (JS.trim query) in
    inventoryNameEntries q (rowsOf (selectUnits s clinicId)) ++
    catalogEntries (rowsOf (limit 30 (selectDrugsOr s (searchMedicationsFilter q)))).

(** The deduplication key of [searchMedicationsByName], read off an entry. *)
Definition entryKey (r : DrugSearchResult) : string :=
  JS.toLowerCase (medicationName r) +:+ "-" +:+ numToString (strengthOf r) +:+
  "-" +:+ DrugService.strengthUnit r.

Definition nameStrengthUnit (r : DrugSearchResult) : string * Num * string :=
  (medicationName r, strengthOf r, DrugService.strengthUnit r).

End Results.

End Spec.

(** ** Lot descriptions *)

Module Lot.
Import QRCode.

(** [lotCode[0]?.toUpperCase()] *)
Definition drawerOf (lotCode : string) : option ascii :=
  match lotCode with
  | String c _ => Some (JS.upperChar c)
  | EmptyString => None
  end.

(** [c || ''] for a character that may be [undefined] *)
Definition charOrEmpty (o : option ascii) : string :=
  match o with
  | Some c => String c EmptyString
  | None => EmptyString
  end.

Definition getLotDescription (lotCode : string) : string :=
  if JS.isEmpty lotCode || (JS.length lotCode <? 1) then "Unknown Location"
  else
    let drawer := charOrEmpty (drawerOf lotCode) in
    let side := charOrEmpty (sideOf lotCode) in
    let drawerName :=
      if JS.isEmpty drawer then "Unknown Drawer" else "Drawer " +:+ drawer in
    let sideName :=
      if bool_decide (side = "L") then " Left"
      else if bool_decide (side = "R") then " Right"
      else "" in
    drawerName +:+ sideName.

End Lot.

(** ** The clients of the store (utils/supabase) *)

Module Supabase.

(** The three variables read from [process.env]. *)
Record Env := {
  SUPABASE_URL : option string;
  SUPABASE_SERVICE_ROLE_KEY : option string;
  SUPABASE_ANON_KEY : option string
}.

(** A client as the module asks for it: the URL, the key and the two
    options given to [createClient]. *)
Record Client := {
  clientUrl : string;
  clientKey : string;
  autoRefreshToken : bool;
  persistSession : bool
}.

Definition createClient (url key : string) : Client :=
  {| clientUrl := url; clientKey := key;
     autoRefreshToken := false; persistSession := false |}.

(** What loading the module leaves when its own checks pass: the two
    clients it asks for and exports, and the warnings written to the
    console. *)
Record Loaded := {
  supabaseServer : Client;
  supabaseAuth : Client;
  warnings : list string
}.

(** [a || b] on values that may be [undefined] *)
Definition orElse (a b : option string) : option string :=
  match JS.truthy a with
  | Some x => Some x
  | None => b
  end.

Definition load (env : Env) : Completion Loaded :=
  let supabaseUrl := SUPABASE_URL env in
  let supabaseServiceKey :=
    orElse (SUPABASE_SERVICE_ROLE_KEY env) (SUPABASE_ANON_KEY env) in
  let supabaseAnonKey := SUPABASE_ANON_KEY env in
  match JS.truthy supabaseUrl with
  | None => Throw (Error "Missing SUPABASE_URL environment variable")
  | Some url =>
      match JS.truthy supabaseServiceKey with
      | None =>
          Throw (Error "Missing SUPABASE_SERVICE_ROLE_KEY or SUPABASE_ANON_KEY environment variable")
      | Some serviceKey =>
          let warned :=
            match JS.truthy supabaseAnonKey with
            | None => ["Warning: SUPABASE_ANON_KEY not set. Authentication may not work properly."]
            | Some _ => []
            end in
          Return {| supabaseServer := createClient url serviceKey;
                    supabaseAuth :=
                      createClient url
                        (match JS.truthy supabaseAnonKey with
                         | Some anon => anon
                         | None => serviceKey
                         end);
                    warnings := warned |}
      end
  end.

End Supabase.

(** ** Notions used to state the further properties *)

Module Notions.
Import QRCode DrugService Spec.

(** The character [d] does not occur in [s]. *)
Definition without (d : ascii) (s : string) : bool :=
  allOf (fun c => negb (JS.isChar d c)) s.

(** The pieces of a composite code between its dashes. *)
Definition fields (code : string) : list string := Sample.splitOn "-" code.

(** A character of a unit of the primary dosage grammar. *)
Definition isUnitChar (c : ascii) : bool := JS.isLetter c || JS.isChar "/" c.

(** A character of a medication code. *)
Definition isCodeChar (c : ascii) : bool := JS.isUpper c || JS.isDigit c.

Section Store.
Context `{Host}.

(** [u] is a unit of the clinic with stock. *)
Definition stocked (s : Store) (clinicId : string) (u : UnitRow) : Prop :=
  u ∈ units s /\ clinic_id u = clinicId /\ 0 < available_quantity u.

(** The digits of the query are found in the digits of the NDC of [d] (as
    they are when the query has no digit), or the query is found in a name
    of [d], case apart: the test of the inventory loop of [searchDrugs]. *)
Definition matchesQuery (query : string) (d : DrugRow) : Prop :=
  let q := JS.trim query in
  (exists ndc, ndc_id d = Some ndc /\
               JS.includes (normalizeNDC ndc) (normalizeNDC q) = true) \/
  JS.includes (JS.toLowerCase (medication_name d)) (JS.toLowerCase q) = true \/
  (exists g, generic_name d = Some g /\
             JS.includes (JS.toLowerCase g) (JS.toLowerCase q) = true).

(** The store when neither table can be read. *)
Definition offline (s : Store) : Store :=
  {| units := units s; units_readable := false;
     drugs := drugs s; drugs_readable := false;
     orFilter := orFilter s; insertAnswer := insertAnswer s |}.

(** No row of the catalog stands for the drug described yet. *)
Definition unknownByNdc (s : Store) (drugData : DrugData) : Prop :=
  exists ndc, JS.truthy (d_ndcId drugData) = Some ndc /\
              forall d, d ∈ drugs s -> ndc_id d <> Some ndc.

(** The catalog holds the drug described more than once: at least two rows
    answer the lookup by name, strength, unit and form, and, when an NDC is
    supplied, at least two rows carry it. *)
Definition duplicated (s : Store) (drugData : DrugData) : Prop :=
  drugs_readable s = true /\
  match JS.truthy (d_ndcId drugData) with
  | Some ndc => (2 <= length (filter (fun d => ndc_id d = Some ndc) (drugs s)))%nat
  | None => True
  end /\
  (2 <= length (filter (fun d => similarTo (d_medicationName drugData)
                                   (d_strength drugData) (d_strengthUnit drugData)
                                   (d_form drugData) d = true) (drugs s)))%nat.

Definition unknownByName (s : Store) (drugData : DrugData) : Prop :=
  (forall d, d ∈ drugs s ->
     similarTo (d_medicationName drugData) (d_strength drugData)
       (d_strengthUnit drugData) (d_form drugData) d = false) /\
  ilike (d_medicationName drugData) (d_medicationName drugData) = true.

End Store.

End Notions.

(** * Properties *)

Import QRCode DrugService Spec.

(** ** Strings *)

Section StringFacts.

Lemma length_app (s t : string) :
  String.length (s +:+ t) = (String.length s + String.length t)%nat.
Proof. induction s as [|c s IH]; simpl; [done | by rewrite IH]. Qed.

Lemma sapp_assoc (s t u : string) : (s +:+ t) +:+ u = s +:+ t +:+ u.
Proof.
  induction s as [|c s IH]; [done|].
  change (String c ((s +:+ t) +:+ u) = String c (s +:+ t +:+ u)). by rewrite IH.
Qed.

Lemma sapp_nil_r (s : string) : s +:+ "" = s.
Proof.
  induction s as [|c s IH]; [done|].
  change (String c (s +:+ "") = String c s). by rewrite IH.
Qed.

Lemma length_map (f : ascii -> ascii) (s : string) :
  String.length (JS.map f s) = String.length s.
Proof. induction s as [|c s IH]; simpl; [done | by rewrite IH]. Qed.

Lemma length_repeat (c : ascii) (n : nat) : String.length (JS.repeat c n) = n.
Proof. induction n as [|n IH]; simpl; [done | by rewrite IH]. Qed.

Lemma length_substring0 (n : nat) (s : string) :
  String.length (JS.substring0 n s) = (n `min` String.length s)%nat.
Proof.
  revert s. induction n as [|n IH]; intros [|c s]; simpl; try done.
  by rewrite IH.
Qed.

Lemma substring0_all (n : nat) (s : string) :
  (String.length s <= n)%nat -> JS.substring0 n s = s.
Proof.
  revert s. induction n as [|n IH]; intros [|c s]; simpl; try done; try lia.
  intros Hle. f_equal. apply IH. lia.
Qed.

Lemma substring0_app (n : nat) (s t : string) :
  (n <= String.length s)%nat -> JS.substring0 n (s +:+ t) = JS.substring0 n s.
Proof.
  revert s. induction n as [|n IH]; intros [|c s]; simpl; try done; try lia.
  intros Hle. f_equal. apply IH. lia.
Qed.

Lemma isChar_eq (d c : ascii) : JS.isChar d c = true <-> c = d.
Proof.
  unfold JS.isChar, JS.code. rewrite N.eqb_eq. split; [|by intros ->].
  intros Heq. rewrite <- (ascii_N_embedding c), <- (ascii_N_embedding d).
  by rewrite Heq.
Qed.

Lemma startsWith_empty (s : string) : JS.startsWith s "" = true.
Proof. by destruct s. Qed.

Lemma includes_empty (s : string) : JS.includes s "" = true.
Proof. destruct s; simpl; by rewrite ?startsWith_empty. Qed.

End StringFacts.

(** ** Lot codes *)

(** C7. [validateLotCode] accepts ["A"] and ["AL"] and rejects ["AX"] when the
    location is optional, rejects ["A"] when it is required, and rejects the
    empty code. Whether or not the location is required, a code of two
    characters that is accepted has L or R as its second character,
    upper-cased, and one whose second character is neither is rejected; when
    its first character is ASCII, it is accepted exactly when that character,
    upper-cased, is in A-Z and the second, upper-cased, is L or R. *)
Theorem validateLotCode_cases :
  validateLotCode "A" false = true /\
  validateLotCode "AL" false = true /\
  validateLotCode "AX" false = false /\
  validateLotCode "A" true = false /\
  (forall b, validateLotCode "" b = false) /\
  (forall c1 c2 b,
     validateLotCode (String c1 (String c2 "")) b = true ->
     JS.upperChar c2 = "L"%char \/ JS.upperChar c2 = "R"%char) /\
  (forall c1 c2 b,
     JS.upperChar c2 <> "L"%char -> JS.upperChar c2 <> "R"%char ->
     validateLotCode (String c1 (String c2 "")) b = false) /\
  (forall c1 c2 b,
     isAsciiChar c1 = true ->
     (validateLotCode (String c1 (String c2 "")) b = true <->
      JS.isUpper (JS.upperChar c1) = true /\
      (JS.upperChar c2 = "L"%char \/ JS.upperChar c2 = "R"%char))).
Proof.
  assert (Hside : forall c1 c2 b,
    validateLotCode (String c1 (String c2 "")) b = true ->
    JS.upperChar c2 = "L"%char \/ JS.upperChar c2 = "R"%char).
  { intros c1 c2 b. unfold validateLotCode. cbn.
    destruct (JS.isUpper (JS.upperChar c1)); cbn; [|by destruct b].
    rewrite <- !isChar_eq.
    destruct (JS.isChar "L" (JS.upperChar c2)), (JS.isChar "R" (JS.upperChar c2));
      destruct b; cbn; auto; discriminate. }
  split_and!; try reflexivity.
  - exact Hside.
  - intros c1 c2 b HL HR.
    destruct (validateLotCode (String c1 (String c2 "")) b) eqn:Hv; [|done].
    by destruct (Hside _ _ _ Hv).
  - intros c1 c2 b _. split.
    + intros Hv. split; [|by eapply Hside].
      revert Hv. unfold validateLotCode. cbn.
      destruct (JS.isUpper (JS.upperChar c1)); [done | by destruct b].
    + intros [H1 H2]. unfold validateLotCode. cbn. rewrite H1. cbn.
      rewrite <- !isChar_eq in H2.
      destruct (JS.isChar "L" (JS.upperChar c2)), (JS.isChar "R" (JS.upperChar c2));
        destruct b; cbn; auto; destruct H2; discriminate.
Qed.

(** ** Composite codes *)

Lemma forallb_seqZ (P : Z -> bool) (lo len : Z) :
  forallb P (seqZ lo len) = true -> forall z, lo <= z < lo + len -> P z = true.
Proof.
  intros Hall z Hz. rewrite forallb_forall in Hall.
  apply Hall, list_elem_of_In, elem_of_seqZ. lia.
Qed.

Lemma medCode_length (medicationName : string) :
  String.length (medCode medicationName) = 4%nat.
Proof.
  unfold medCode, JS.padEnd, JS.toUpperCase.
  rewrite length_app, length_repeat, length_map, length_substring0. lia.
Qed.

Lemma doseNum_length (dosage : string) : String.length (doseNum dosage) = 2%nat.
Proof.
  unfold doseNum, JS.padStart.
  rewrite length_substring0, length_app, length_repeat. lia.
Qed.

Lemma twoDigits_length (n : Z) :
  0 <= n <= 99 -> String.length (JS.padStart 2 "0" (JS.ofInt n)) = 2%nat.
Proof.
  intros Hn.
  pose (P := fun z => bool_decide
                 (String.length (JS.padStart 2 "0" (JS.ofInt z)) = 2%nat)).
  assert (P n = true) as HP; [|by apply bool_decide_eq_true in HP].
  apply (forallb_seqZ P 0 100); [by vm_compute | lia].
Qed.

Lemma twoDigitYear_length (y : Z) :
  1000 <= y <= 9999 -> String.length (JS.sliceLast 2 (JS.ofInt y)) = 2%nat.
Proof.
  intros Hy.
  pose (P := fun z => bool_decide
                 (String.length (JS.sliceLast 2 (JS.ofInt z)) = 2%nat)).
  assert (P y = true) as HP; [|by apply bool_decide_eq_true in HP].
  apply (forallb_seqZ P 1000 9000); [by vm_compute | lia].
Qed.

(** ** Dosage strings *)

Section Dosage.

Lemma span_spec (p : ascii -> bool) (s a b : string) :
  JS.span p s = (a, b) ->
  s = a +:+ b /\ allOf p a = true /\ headIs p b = false.
Proof.
  revert a b. induction s as [|c s IH]; intros a b; simpl.
  - by intros [= <- <-].
  - destruct (p c) eqn:Hc.
    + destruct (JS.span p s) as [a' b'] eqn:Hs. intros [= <- <-].
      destruct (IH a' b' eq_refl) as (-> & Ha & Hb).
      simpl. by rewrite Hc, Ha.
    + intros [= <- <-]. simpl. by rewrite Hc.
Qed.

Lemma span_app (p : ascii -> bool) (a b : string) :
  allOf p a = true -> headIs p b = false -> JS.span p (a +:+ b) = (a, b).
Proof.
  intros Ha Hb. induction a as [|c a IH].
  - destruct b as [|d b]; simpl in *; [done | by rewrite Hb].
  - simpl in Ha. apply andb_true_iff in Ha as [Hc Ha].
    change (String c a +:+ b) with (String c (a +:+ b)). simpl.
    by rewrite Hc, (IH Ha).
Qed.

Lemma isEmpty_true (s : string) : JS.isEmpty s = true <-> s = "".
Proof. by destruct s. Qed.

Lemma isEmpty_false (s : string) : JS.isEmpty s = false <-> s <> "".
Proof. by destruct s. Qed.


Lemma headIs_allOf (p q : ascii -> bool) (a : string) :
  (forall c, p c = true -> q c = false) ->
  allOf p a = true -> headIs q a = false.
Proof.
  intros Hpq. destruct a as [|c a]; simpl; [done|].
  intros [Hc _]%andb_true_iff. by apply Hpq.
Qed.

Lemma dot_not_digit c : JS.isChar "." c = true -> JS.isDigit c = false.
Proof. destruct c as [[] [] [] [] [] [] [] []]; by vm_compute. Qed.

Lemma orb_false_head (p q : ascii -> bool) (r : string) :
  headIs (fun c => p c || q c) r = false ->
  headIs p r = false /\ headIs q r = false.
Proof. destruct r as [|c r]; simpl; [done | by intros ?%orb_false_iff]. Qed.

Lemma matchNumeral_app (num r : string) :
  Numeral num ->
  headIs (fun c => JS.isDigit c || JS.isChar "." c) r = false ->
  matchNumeral (num +:+ r) = Some (num, r).
Proof.
  intros (int & Hint & Hne & Hnum) [Hdigit Hdot]%orb_false_head.
  apply isEmpty_false in Hne. unfold matchNumeral.
  destruct Hnum as [-> | (frac & Hfrac & Hfne & ->)].
  - rewrite (span_app _ _ _ Hint Hdigit), Hne.
    destruct r as [|c r']; [done|]. simpl in Hdot. rewrite Hdot. simpl.
    by destruct (JS.span JS.isDigit r').
  - apply isEmpty_false in Hfne.
    rewrite sapp_assoc.
    change (("." +:+ frac) +:+ r) with (String "." (frac +:+ r)).
    rewrite (span_app _ int _ Hint) by done. rewrite Hne.
    rewrite (span_app _ _ _ Hfrac Hdigit), Hfne. done.
Qed.

Lemma matchNumeral_spec (s num r : string) :
  matchNumeral s = Some (num, r) -> Numeral num /\ s = num +:+ r.
Proof.
  unfold matchNumeral.
  destruct (JS.span JS.isDigit s) as [int r0] eqn:Hspan.
  apply span_spec in Hspan as (-> & Hint & _).
  destruct (JS.isEmpty int) eqn:Hne; [done|]. apply isEmpty_false in Hne.
  destruct r0 as [|c r']; [intros [= <- <-]; split; [exists int; auto | done]|].
  destruct (JS.span JS.isDigit r') as [frac r''] eqn:Hspan'.
  apply span_spec in Hspan' as (-> & Hfrac & _).
  destruct (JS.isChar "." c) eqn:Hc; simpl.
  - apply isChar_eq in Hc as ->.
    destruct (JS.isEmpty frac) eqn:Hfne; simpl.
    + intros [= <- <-]. split; [exists int; auto | done].
    + apply isEmpty_false in Hfne. intros [= <- <-]. split.
      * exists int. split_and!; [done..|]. right. by exists frac.
      * rewrite sapp_assoc. done.
  - intros [= <- <-]. split; [exists int; auto | done].
Qed.


Lemma matchComplex_spec (s num unit : string) :
  matchComplex s = Some (num, unit) -> LeadingPair s num unit.
Proof.
  unfold matchComplex.
  destruct (matchNumeral s) as [[num' r]|] eqn:Hnum; [|done].
  apply matchNumeral_spec in Hnum as [Hnum ->].
  destruct (JS.span JS.isSpace r) as [ws r1] eqn:Hws.
  apply span_spec in Hws as (-> & Hws & _). simpl.
  destruct (JS.span JS.isLetter r1) as [unit' rest] eqn:Hunit.
  apply span_spec in Hunit as (-> & Hunit & Hrest). simpl.
  destruct (JS.isEmpty unit') eqn:Hne; [done|]. apply isEmpty_false in Hne.
  intros [= <- <-]. by exists ws, rest.
Qed.

Lemma unit_not_space c :
  JS.isLetter c || JS.isChar "/" c = true -> JS.isSpace c = false.
Proof. destruct c as [[] [] [] [] [] [] [] []]; by vm_compute. Qed.
Lemma unit_not_digit_dot c :
  JS.isLetter c || JS.isChar "/" c = true ->
  JS.isDigit c || JS.isChar "." c = false.
Proof. destruct c as [[] [] [] [] [] [] [] []]; by vm_compute. Qed.
Lemma space_not_digit_dot c :
  JS.isSpace c = true -> JS.isDigit c || JS.isChar "." c = false.
Proof. destruct c as [[] [] [] [] [] [] [] []]; by vm_compute. Qed.

Lemma span_all (p : ascii -> bool) (a : string) :
  allOf p a = true -> JS.span p a = (a, "").
Proof.
  intros Ha. rewrite <- (sapp_nil_r a) at 1. by apply span_app.
Qed.

(** The primary pattern matches exactly the texts made of a numeral, white
    space and a unit of letters and slashes, with these groups. *)
Lemma matchPrimary_whole (s num unit : string) :
  WholeDosage s num unit ->
  matchPrimary s = Some (num, if JS.isEmpty unit then None else Some unit).
Proof.
  intros (ws & Hnum & Hws & Hunit & ->). unfold matchPrimary.
  rewrite matchNumeral_app; [|done|].
  - rewrite (span_app _ _ _ Hws) by (eapply headIs_allOf, Hunit; apply unit_not_space).
    simpl. by rewrite (span_all _ _ Hunit).
  - destruct ws as [|c ws].
    + eapply headIs_allOf, Hunit. apply unit_not_digit_dot.
    + simpl in Hws |- *. apply andb_true_iff in Hws as [Hc _].
      by apply space_not_digit_dot.
Qed.

Lemma matchPrimary_spec (s num : string) (group2 : option string) :
  matchPrimary s = Some (num, group2) ->
  exists unit, WholeDosage s num unit /\
               group2 = if JS.isEmpty unit then None else Some unit.
Proof.
  unfold matchPrimary.
  destruct (matchNumeral s) as [[num' r]|] eqn:Hnum; [|done].
  apply matchNumeral_spec in Hnum as [Hnum ->].
  destruct (JS.span JS.isSpace r) as [ws r1] eqn:Hws.
  apply span_spec in Hws as (-> & Hws & _). simpl.
  destruct (JS.span _ r1) as [unit r2] eqn:Hunit.
  apply span_spec in Hunit as (-> & Hunit & _).
  destruct (JS.isEmpty r2) eqn:Hr2; [|done]. apply isEmpty_true in Hr2 as ->.
  intros [= <- <-]. exists unit. split; [|done].
  exists ws. by rewrite sapp_nil_r.
Qed.




End Dosage.

(** ** Deduplication *)

Section Dedup.
Context `{Host} {K : Type} `{Countable K}.
Implicit Types (key : DrugSearchResult -> K) (seen : gset K).
Implicit Types (l res : list DrugSearchResult).

Lemma pushAll_keepFirst key l seen res :
  (pushAll key (seen, res) l).2 = res ++ keepFirst key seen l.
Proof.
  unfold pushAll. revert seen res.
  induction l as [|r l IH]; intros seen res; simpl.
  - by rewrite app_nil_r.
  - unfold push at 2. simpl. case_bool_decide.
    + apply IH.
    + rewrite IH. by rewrite <- app_assoc.
Qed.

Lemma pushAll_app key l1 l2 acc :
  pushAll key acc (l1 ++ l2) = pushAll key (pushAll key acc l1) l2.
Proof. apply foldl_app. Qed.

Lemma keepFirst_sublist key seen l : keepFirst key seen l `sublist_of` l.
Proof.
  revert seen. induction l as [|r l IH]; intros seen; simpl; [done|].
  case_bool_decide; [by apply sublist_cons | by apply sublist_skip].
Qed.

Lemma keepFirst_fresh key seen l r :
  r ∈ keepFirst key seen l -> key r ∉ seen.
Proof.
  revert seen. induction l as [|r0 l IH]; intros seen; simpl.
  - by intros ?%elem_of_nil.
  - case_bool_decide as Hin; [apply IH|].
    intros [-> | Hr%IH]%elem_of_cons; [done | set_solver].
Qed.

Lemma keepFirst_NoDup key seen l : NoDup (key <$> keepFirst key seen l).
Proof.
  revert seen. induction l as [|r l IH]; intros seen; simpl.
  - constructor.
  - case_bool_decide; [apply IH|]. rewrite fmap_cons. constructor; [|apply IH].
    intros (r' & Heq & Hr')%list_elem_of_fmap.
    apply keepFirst_fresh in Hr'. set_solver.
Qed.

(** First occurrence wins: an entry kept is preceded in [l] by no entry with
    its key. *)
Lemma keepFirst_first key seen l r :
  r ∈ keepFirst key seen l ->
  exists i, l !! i = Some r /\
            forall j r', (j < i)%nat -> l !! j = Some r' -> key r' <> key r.
Proof.
  revert seen. induction l as [|r0 l IH]; intros seen; simpl.
  - by intros ?%elem_of_nil.
  - case_bool_decide as Hin.
    + intros Hr. pose proof (keepFirst_fresh _ _ _ _ Hr) as Hfresh.
      destruct (IH _ Hr) as (i & Hi & Hbefore). exists (S i). split; [done|].
      intros [|j] r' Hj; simpl; [intros [= <-]; congruence|].
      apply Hbefore. lia.
    + intros [-> | Hr]%elem_of_cons.
      * exists 0%nat. split; [done | intros; lia].
      * pose proof (keepFirst_fresh _ _ _ _ Hr) as Hfresh.
        destruct (IH _ Hr) as (i & Hi & Hbefore). exists (S i). split; [done|].
        intros [|j] r' Hj; simpl; [intros [= <-]; set_solver|].
        apply Hbefore. lia.
Qed.

End Dedup.

(** ** Order of a sequence *)

Section Order.
Context {A : Type} (R : A -> A -> Prop).
Implicit Types l k : list A.

Lemma Forall_sublist_of (P : A -> Prop) l k :
  l `sublist_of` k -> Forall P k -> Forall P l.
Proof.
  induction 1 as [|x l k _ IH|x l k _ IH]; intros HP; [done|..];
    apply Forall_cons in HP as [Hx HP]; auto.
Qed.

Lemma StronglySorted_sublist_of l k :
  l `sublist_of` k -> StronglySorted R k -> StronglySorted R l.
Proof.
  induction 1 as [|x l k Hsub IH|x l k Hsub IH]; intros Hk; [done|..];
    apply StronglySorted_cons in Hk as [Hx Hk]; [|by auto].
  apply StronglySorted_cons. split; [|by auto].
  by eapply Forall_sublist_of.
Qed.

Lemma StronglySorted_ordered l : StronglySorted R l -> ordered R l.
Proof.
  induction 1 as [|x l _ IH Hx]; intros i j a b Hij Hi Hj.
  - by rewrite lookup_nil in Hi.
  - destruct j as [|j]; [lia|]. simpl in Hj. destruct i as [|i]; simpl in Hi.
    + injection Hi as <-. rewrite Forall_lookup in Hx. by eapply Hx.
    + eapply (IH i j); [lia|done..].
Qed.

End Order.

(** ** [sort] *)

Section Sort.
Context {A : Type} (cmp : A -> A -> Z).
Implicit Types l : list A.

Lemma sortInsert_perm x l : sortInsert cmp x l ≡ₚ x :: l.
Proof.
  induction l as [|y l IH]; simpl; [done|].
  destruct (cmp x y <=? 0); [done|]. rewrite IH. apply perm_swap.
Qed.

Lemma sort_perm l : sort cmp l ≡ₚ l.
Proof.
  induction l as [|x l IH]; simpl; [done|].
  unfold sort in IH. by rewrite sortInsert_perm, IH.
Qed.

(** With a total and transitive comparator the result is in order. *)
Lemma sort_sorted l :
  (forall a b, cmp a b <= 0 \/ cmp b a <= 0) ->
  (forall a b c, cmp a b <= 0 -> cmp b c <= 0 -> cmp a c <= 0) ->
  StronglySorted (fun a b => cmp a b <= 0) (sort cmp l).
Proof.
  intros Htotal Htrans.
  induction l as [|x l IH]; simpl; [constructor|].
  change (foldr (sortInsert cmp) [] l) with (sort cmp l).
  revert IH. generalize (sort cmp l).
  intros k. induction 1 as [|y k Hk IH Hy]; simpl.
  - repeat constructor.
  - destruct (cmp x y <=? 0) eqn:Hxy.
    + apply Z.leb_le in Hxy.
      apply SSorted_cons; [by apply SSorted_cons|].
      apply Forall_cons. split; [done|].
      eapply Forall_impl; [exact Hy|]. intros z Hz. by eapply Htrans.
    + apply Z.leb_gt in Hxy. apply SSorted_cons; [done|].
      rewrite sortInsert_perm. apply Forall_cons. split; [|done].
      destruct (Htotal x y); [lia | done].
Qed.

End Sort.

(** ** The two searches as deduplications of their entries *)

Section SearchFacts.
Context `{Host}.
Implicit Types (s : Store) (rs : list DrugSearchResult) (d : DrugRow).

Lemma inventoryMatch_ndc q n d b :
  inventoryMatch q n d = Return b -> is_Some (ndc_id d).
Proof. unfold inventoryMatch. by destruct (ndc_id d). Qed.

Lemma inventoryLoop_entries q n rows acc acc' :
  inventoryLoop q n rows acc = Return acc' ->
  acc' = pushAll ndcId acc (inventoryEntries q n rows).
Proof.
  unfold pushAll, inventoryEntries. revert acc.
  induction rows as [|u rows IH]; intros acc; simpl.
  - by intros [= <-].
  - destruct (drug u) as [d|]; [|by apply IH].
    destruct (inventoryMatch q n d) as [[|]|e]; simpl; [..|done].
    + intros Hloop. by apply IH in Hloop.
    + apply IH.
Qed.

Lemma catalogLoop_entries rows acc :
  catalogLoop rows acc = pushAll ndcId acc (catalogEntries rows).
Proof. unfold catalogLoop, pushAll, catalogEntries. by rewrite foldl_fmap. Qed.

Lemma inventoryNameLoop_entries q rows acc :
  inventoryNameLoop q rows acc = pushAll entryKey acc (inventoryNameEntries q rows).
Proof.
  unfold inventoryNameLoop, pushAll, inventoryNameEntries. revert acc.
  induction rows as [|u rows IH]; intros acc; simpl; [done|].
  destruct (drug u) as [d|]; [|by apply IH].
  destruct (nameMatch q d); simpl; by apply IH.
Qed.

Lemma catalogNameLoop_entries rows acc :
  catalogNameLoop rows acc = pushAll entryKey acc (catalogEntries rows).
Proof. unfold catalogNameLoop, pushAll, catalogEntries. by rewrite foldl_fmap. Qed.

Lemma pushAll_rowsOf {K A} `{Countable K} (key : DrugSearchResult -> K)
    (entries : list A -> list DrugSearchResult) (data : option (list A)) acc :
  entries [] = [] ->
  match data with
  | Some rows => pushAll key acc (entries rows)
  | None => acc
  end = pushAll key acc (entries (rowsOf data)).
Proof. intros Hnil. destruct data; simpl; [done | by rewrite Hnil]. Qed.

(** [searchDrugs], when it returns, returns the first ten of its entries
    deduplicated by NDC. *)
Lemma searchDrugs_entries s query clinicId rs :
  searchDrugs s query clinicId = Return rs ->
  rs = take 10 (keepFirst ndcId ∅ (searchDrugsEntries s query clinicId)).
Proof.
  unfold searchDrugs, searchDrugsEntries, tooShort.
  destruct (JS.isEmpty query || (JS.length (JS.trim query) <? 2));
    [by intros [= <-]|].
  set (q := JS.trim query). set (n := normalizeNDC q).
  rewrite <- (app_nil_l (keepFirst _ _ _)), <- pushAll_keepFirst, pushAll_app.
  rewrite <- (pushAll_rowsOf ndcId catalogEntries) by done.
  destruct (selectUnits s clinicId) as [rows|]; simpl.
  - destruct (inventoryLoop q n rows (∅, [])) as [acc1|e] eqn:Hloop; [|done].
    apply inventoryLoop_entries in Hloop as ->. simpl. intros [= <-].
    destruct (limit 20 _); by rewrite ?catalogLoop_entries.
  - intros [= <-]. destruct (limit 20 _); by rewrite ?catalogLoop_entries.
Qed.

(** [searchMedicationsByName] returns the first fifteen of its entries
    deduplicated by key and sorted. *)
Lemma searchMedications_entries s query clinicId :
  searchMedicationsByName s query clinicId =
  take 15 (sort compareResults
             (keepFirst entryKey ∅ (searchMedicationsEntries s query clinicId))).
Proof.
  unfold searchMedicationsByName, searchMedicationsEntries, tooShort.
  destruct (JS.isEmpty query || (JS.length (JS.trim query) <? 2)); [done|].
  set (q := JS.toLowerCase (JS.trim query)).
  rewrite <- (app_nil_l (keepFirst _ _ _)), <- pushAll_keepFirst, pushAll_app.
  rewrite <- (pushAll_rowsOf entryKey catalogEntries) by done.
  rewrite <- (pushAll_rowsOf entryKey (inventoryNameEntries q)) by done.
  destruct (selectUnits s clinicId) as [rows|];
    destruct (limit 30 _);
    by rewrite ?inventoryNameLoop_entries, ?catalogNameLoop_entries.
Qed.

End SearchFacts.

(** ** Grouping and order of the results *)

Section Grouping.
Context `{Host}.
Implicit Types (rs l k : list DrugSearchResult).

Lemma inventoryEntries_spec q n rows :
  Forall (fun r => inInventory r = true /\ is_Some (ndcId r))
         (inventoryEntries q n rows).
Proof.
  apply Forall_forall. intros r (u & _ & Hu)%list_elem_of_omap.
  destruct (drug u) as [d|]; [|done].
  destruct (inventoryMatch q n d) as [[|]|] eqn:Hmatch; [|done..].
  injection Hu as <-. split; [done|]. by eapply inventoryMatch_ndc.
Qed.

Lemma inventoryNameEntries_spec q rows :
  Forall (fun r => inInventory r = true) (inventoryNameEntries q rows).
Proof.
  apply Forall_forall. intros r (u & _ & Hu)%list_elem_of_omap.
  destruct (drug u) as [d|]; [|done].
  destruct (nameMatch q d); [|done]. by injection Hu as <-.
Qed.

Lemma catalogEntries_spec rows :
  Forall (fun r => inInventory r = false) (catalogEntries rows).
Proof. apply Forall_fmap, Forall_forall. by intros d _. Qed.

Lemma grouped_app l k :
  Forall (fun r => inInventory r = true) l ->
  Forall (fun r => inInventory r = false) k ->
  StronglySorted group (l ++ k).
Proof.
  intros Hl Hk. induction Hl as [|a l Ha Hl IH]; simpl.
  - induction Hk as [|b k Hb Hk IH]; constructor; [done|].
    eapply Forall_impl; [exact Hk|]. by intros c Hc _.
  - constructor; [done|]. apply Forall_forall. intros c _ Hc. congruence.
Qed.

Lemma searchDrugsEntries_grouped s query clinicId :
  StronglySorted group (searchDrugsEntries s query clinicId).
Proof.
  unfold searchDrugsEntries. destruct (tooShort query); [constructor|].
  apply grouped_app; [|apply catalogEntries_spec].
  eapply Forall_impl; [apply inventoryEntries_spec|]. by intros r [].
Qed.

(** The comparator alone keeps the inventory first, whatever
    [localeCompare] is. *)
Lemma sortInsert_grouped x k :
  StronglySorted group k -> StronglySorted group (sortInsert compareResults x k).
Proof.
  induction 1 as [|y k Hk IH Hy]; simpl; [by repeat constructor|].
  destruct (compareResults x y <=? 0) eqn:Hxy.
  - apply Z.leb_le in Hxy. apply SSorted_cons; [by apply SSorted_cons|].
    assert (group x y) as Hgxy.
    { intros Hx. revert Hxy. unfold compareResults. rewrite Hx. simpl.
      destruct (inInventory y); [lia | done]. }
    apply Forall_cons. split; [done|].
    eapply Forall_impl; [exact Hy|]. intros z Hz Hx. auto.
  - apply Z.leb_gt in Hxy. apply SSorted_cons; [done|].
    rewrite sortInsert_perm. apply Forall_cons. split; [|done].
    intros Hy'. revert Hxy. unfold compareResults. rewrite Hy'. simpl.
    destruct (inInventory x); simpl; [lia | done].
Qed.

Lemma sort_grouped l : StronglySorted group (sort compareResults l).
Proof.
  induction l as [|x l IH]; simpl; [constructor|].
  by apply sortInsert_grouped.
Qed.

Lemma compareResults_consistent :
  consistent localeCompare ->
  (forall a b, compareResults a b <= 0 \/ compareResults b a <= 0) /\
  (forall a b c, compareResults a b <= 0 -> compareResults b c <= 0 ->
                 compareResults a c <= 0).
Proof.
  intros [Htotal Htrans]. unfold compareResults. split.
  - intros a b. destruct (inInventory a), (inInventory b); simpl;
      try apply Htotal; lia.
  - intros a b c.
    destruct (inInventory a), (inInventory b), (inInventory c); simpl;
      try apply Htrans; lia.
Qed.

Lemma sort_byName l :
  consistent localeCompare -> StronglySorted byName (sort compareResults l).
Proof.
  intros [Htotal Htrans]%compareResults_consistent.
  pose proof (sort_sorted compareResults l Htotal Htrans) as Hsorted.
  induction Hsorted as [|x k _ IH Hx]; constructor; [done|].
  eapply Forall_impl; [exact Hx|]. intros y Hxy Heq. revert Hxy.
  unfold compareResults. rewrite Heq. by destruct (inInventory y).
Qed.

Lemma searchDrugs_inventoryFirst s query clinicId rs :
  searchDrugs s query clinicId = Return rs -> inventoryFirst rs.
Proof.
  intros ->%searchDrugs_entries. apply StronglySorted_ordered.
  eapply StronglySorted_sublist_of; [|apply searchDrugsEntries_grouped].
  etrans; [apply sublist_take | apply keepFirst_sublist].
Qed.

Lemma searchMedications_inventoryFirst s query clinicId :
  inventoryFirst (searchMedicationsByName s query clinicId).
Proof.
  rewrite searchMedications_entries. apply StronglySorted_ordered.
  eapply StronglySorted_sublist_of; [apply sublist_take | apply sort_grouped].
Qed.

Lemma searchMedications_sortedByName s query clinicId :
  consistent localeCompare ->
  sortedByName (searchMedicationsByName s query clinicId).
Proof.
  intros Hcmp. rewrite searchMedications_entries. apply StronglySorted_ordered.
  eapply StronglySorted_sublist_of; [apply sublist_take | by apply sort_byName].
Qed.

End Grouping.

(** ** Invariants of the results *)

Section Invariants.
Context `{Host}.
Implicit Types (s : Store) (rs : list DrugSearchResult).

Lemma entryKey_nameStrengthUnit rs :
  NoDup (entryKey <$> rs) -> NoDup (nameStrengthUnit <$> rs).
Proof.
  pose (f := fun t : string * Num * string =>
               JS.toLowerCase t.1.1 +:+ "-" +:+ numToString t.1.2 +:+ "-" +:+ t.2).
  change entryKey with (f ∘ nameStrengthUnit).
  rewrite list_fmap_compose. apply NoDup_fmap_1.
Qed.

Lemma NoDup_fmap_filter_eq {A B} (f : A -> B) (b : B)
    `{!forall x, Decision (f x = b)} (l : list A) :
  NoDup (f <$> l) -> (length (filter (fun x => f x = b) l) <= 1)%nat.
Proof.
  induction l as [|x l IH]; simpl; [lia|].
  rewrite NoDup_cons. intros [Hx Hl]. rewrite filter_cons.
  case_decide as Hfx; [|by apply IH]. simpl.
  destruct (filter (fun x => f x = b) l) as [|y ys] eqn:Hfilter; [simpl; lia|].
  exfalso. assert (y ∈ filter (fun x => f x = b) l) as Hy
    by (rewrite Hfilter; left).
  apply list_elem_of_filter in Hy as [Hfy Hy]. apply Hx.
  apply list_elem_of_fmap. exists y. split; [congruence | done].
Qed.

Lemma elem_of_take_1 {A} (x : A) (n : nat) (l : list A) : x ∈ take n l -> x ∈ l.
Proof. intros (i & Hi & _)%elem_of_take. by eapply list_elem_of_lookup_2. Qed.

(** C5. The results of [searchDrugs] carry pairwise distinct NDC values, each
    entry being the first of the entries offered with its NDC; the results of
    [searchMedicationsByName] carry pairwise distinct keys, hence pairwise
    distinct (medication name, strength, strength unit). *)
Theorem deduplication_invariant s query clinicId :
  (forall rs,
     searchDrugs s query clinicId = Return rs ->
     NoDup (ndcId <$> rs) /\
     forall r, r ∈ rs ->
       exists i, searchDrugsEntries s query clinicId !! i = Some r /\
                 forall j r', (j < i)%nat ->
                   searchDrugsEntries s query clinicId !! j = Some r' ->
                   ndcId r' <> ndcId r) /\
  NoDup (entryKey <$> searchMedicationsByName s query clinicId) /\
  NoDup (nameStrengthUnit <$> searchMedicationsByName s query clinicId).
Proof.
  split.
  - intros rs ->%searchDrugs_entries. split.
    + rewrite fmap_take. eapply sublist_NoDup; [|apply sublist_take].
      apply keepFirst_NoDup.
    + intros r Hr%elem_of_take_1. by eapply keepFirst_first.
  - assert (NoDup (entryKey <$> searchMedicationsByName s query clinicId)) as Hkeys.
    { rewrite searchMedications_entries, fmap_take.
      eapply sublist_NoDup; [|apply sublist_take].
      rewrite sort_perm. apply keepFirst_NoDup. }
    split; [done | by apply entryKey_nameStrengthUnit].
Qed.

(** C6. [searchDrugs] returns at most ten entries, the inventory first, in the
    order in which its loops offered them; [searchMedicationsByName] returns
    at most fifteen entries, the inventory first, and, [localeCompare] being
    consistent, each group in the order of the medication names. *)
Theorem ordering_invariant s query clinicId :
  (forall rs,
     searchDrugs s query clinicId = Return rs ->
     (length rs <= 10)%nat /\ inventoryFirst rs /\
     rs `sublist_of` searchDrugsEntries s query clinicId) /\
  (length (searchMedicationsByName s query clinicId) <= 15)%nat /\
  inventoryFirst (searchMedicationsByName s query clinicId) /\
  (consistent localeCompare ->
   sortedByName (searchMedicationsByName s query clinicId)).
Proof.
  split_and!.
  - intros rs Hrs. split_and!.
    + apply searchDrugs_entries in Hrs as ->. rewrite length_take. lia.
    + by eapply searchDrugs_inventoryFirst.
    + apply searchDrugs_entries in Hrs as ->.
      etrans; [apply sublist_take | apply keepFirst_sublist].
  - rewrite searchMedications_entries, length_take. lia.
  - apply searchMedications_inventoryFirst.
  - apply searchMedications_sortedByName.
Qed.

(** C10. At most one result of [searchDrugs] lacks an NDC; it comes from the
    catalog, and no entry offered before it lacked an NDC. *)
Theorem at_most_one_without_ndc s query clinicId rs :
  searchDrugs s query clinicId = Return rs ->
  (length (filter (fun r => ndcId r = None) rs) <= 1)%nat /\
  forall r, r ∈ rs -> ndcId r = None ->
    inInventory r = false /\
    exists i, searchDrugsEntries s query clinicId !! i = Some r /\
              forall j r', (j < i)%nat ->
                searchDrugsEntries s query clinicId !! j = Some r' ->
                is_Some (ndcId r').
Proof.
  intros Hrs. split.
  - apply NoDup_fmap_filter_eq.
    pose proof (searchDrugs_entries _ _ _ _ Hrs) as ->.
    rewrite fmap_take. eapply sublist_NoDup; [|apply sublist_take].
    apply keepFirst_NoDup.
  - intros r Hr Hnone.
    pose proof (searchDrugs_entries _ _ _ _ Hrs) as ->.
    apply elem_of_take_1 in Hr.
    pose proof (keepFirst_first _ _ _ _ Hr) as (i & Hi & Hbefore).
    split.
    + apply list_elem_of_lookup_2 in Hi. revert Hi.
      unfold searchDrugsEntries. destruct (tooShort query); [by intros ?%elem_of_nil|].
      intros [Hinv | Hcat]%elem_of_app.
      * pose proof (inventoryEntries_spec (JS.trim query)
                      (normalizeNDC (JS.trim query))
                      (rowsOf (selectUnits s clinicId))) as Hall.
        rewrite Forall_forall in Hall. destruct (Hall _ Hinv) as [_ [n Hn]].
        congruence.
      * pose proof (catalogEntries_spec
                      (rowsOf (limit 20 (selectDrugsOr s
                         (searchDrugsFilter (JS.trim query)
                            (normalizeNDC (JS.trim query))))))) as Hall.
        rewrite Forall_forall in Hall. by apply Hall.
    + exists i. split; [done|]. intros j r' Hj Hr'.
      specialize (Hbefore j r' Hj Hr'). rewrite Hnone in Hbefore.
      by destruct (ndcId r').
Qed.

End Invariants.

(** ** The searches on the sample store *)

Section OnSample.
Import Sample.

Lemma sign_nonpos (c : comparison) : sign c <= 0 <-> c <> Gt.
Proof. destruct c; simpl; split; (done || lia). Qed.

Lemma sampleCompare_consistent : consistent sampleCompare.
Proof.
  unfold sampleCompare. split.
  - intros a b. rewrite !sign_nonpos.
    rewrite (String.compare_antisym (JS.toLowerCase b)).
    destruct (String.compare _ _); simpl; auto.
  - intros a b c. rewrite !sign_nonpos. intros Hab Hbc.
    assert (forall x y : string, String.compare x y <> Gt <-> String.le x y) as Hle.
    { intros x y. unfold String.le, String.leb.
      destruct (String.compare x y); simpl; split; (done || auto). }
    apply Hle. etrans; apply Hle; eassumption.
Qed.

(** The deduplication invariant on a search for ["sal"]: the second catalog
    row without NDC is dropped. *)
Lemma deduplication_invariant_sample :
  exists rs,
    searchDrugs clinicStore "sal" "clinic-1" = Return rs /\
    drugId <$> rs = ["d1"; "d2"; "d4"] /\
    NoDup (ndcId <$> rs).
Proof.
  eexists. split; [reflexivity|]. split; [reflexivity|].
  apply (proj1 (deduplication_invariant clinicStore "sal" "clinic-1")).
  reflexivity.
Defined.

(** The ordering invariant on a search for ["in"]. *)
Lemma ordering_invariant_sample :
  medicationName <$> searchMedicationsByName clinicStore "in" "clinic-1" =
    ["Aspirin"; "Zinc"; "Amlodipine"; "Saline"; "Saline Flush"; "Zinc Oxide"] /\
  inInventory <$> searchMedicationsByName clinicStore "in" "clinic-1" =
    [true; true; false; false; false; false] /\
  sortedByName (searchMedicationsByName clinicStore "in" "clinic-1").
Proof.
  split; [reflexivity|]. split; [reflexivity|].
  apply (proj2 (ordering_invariant clinicStore "in" "clinic-1")).
  apply sampleCompare_consistent.
Defined.

(** In the search for ["sal"] the one result without NDC is the catalog row
    of saline. *)
Lemma at_most_one_without_ndc_sample :
  exists rs,
    searchDrugs clinicStore "sal" "clinic-1" = Return rs /\
    filter (fun r => ndcId r = None) rs = [toResult saline false] /\
    (length (filter (fun r => ndcId r = None) rs) <= 1)%nat.
Proof.
  eexists. split; [reflexivity|]. split; [reflexivity|].
  apply (at_most_one_without_ndc clinicStore "sal" "clinic-1").
  reflexivity.
Defined.

End OnSample.

(** ** Where the searches part from the specification *)

Section Divergences.
Import Sample.

(** [searchDrugByNDC] reads one unit of the clinic, the first in stock: when
    the NDC of that unit differs, the answer is that of the catalog whatever
    the other units in stock are. *)
Lemma searchDrugByNDC_first_unit_differs `{Host} (s : Store) (ndc c n : string)
    (u : UnitRow) (rest : list UnitRow) (d : DrugRow) :
  c <> "" ->
  selectUnits s c = Some (u :: rest) ->
  drug u = Some d -> ndc_id d = Some n ->
  normalizeNDC n <> normalizeNDC ndc ->
  searchDrugByNDC s ndc (Some c) =
    Return ((fun d => toResult d false) <$> single (selectDrugsByNdc s ndc)).
Proof.
  intros Hc Hunits Hdrug Hndc Hne. unfold searchDrugByNDC.
  apply isEmpty_false in Hc. simpl. rewrite Hc, Hunits. simpl.
  rewrite Hdrug. simpl. rewrite Hndc. simpl.
  rewrite bool_decide_eq_false_2 by done. simpl.
  by destruct (single (selectDrugsByNdc s ndc)).
Qed.

(** C1. The clinic holds zinc in stock, second after aspirin.  Scanning the
    NDC of zinc does not return the unit in stock: written with its dashes
    the code finds the catalog row and flags it as out of the inventory,
    written without them it finds nothing.  Only the NDC of the first unit
    is found in the inventory. *)
Theorem searchDrugByNDC_second_unit :
  selectUnits clinicStore "clinic-1" =
    Some [unitRow "u1" "clinic-1" 30 aspirin; unitRow "u2" "clinic-1" 12 zinc] /\
  normalizeNDC "22222-2222-22" = normalizeNDC "22222222222" /\
  searchDrugByNDC clinicStore "22222222222" (Some "clinic-1") = Return None /\
  searchDrugByNDC clinicStore "22222-2222-22" (Some "clinic-1") =
    Return (Some (toResult zinc false)) /\
  searchDrugByNDC clinicStore "11111111111" (Some "clinic-1") =
    Return (Some (toResult aspirin true)).
Proof. split_and!; reflexivity. Qed.

(** A query without digits has the empty string as its NDC form, and the
    empty string is included in every NDC: the drug of every unit matches. *)
Lemma inventoryMatch_without_digits `{Host} (q ndc generic : string) (d : DrugRow) :
  normalizeNDC q = "" ->
  ndc_id d = Some ndc -> generic_name d = Some generic ->
  inventoryMatch q (normalizeNDC q) d = Return true.
Proof.
  intros -> Hndc Hgeneric. unfold inventoryMatch.
  rewrite Hndc, Hgeneric. simpl. rewrite includes_empty.
  by destruct (JS.includes (JS.toLowerCase (medication_name d)) _).
Qed.

(** C3. The query ["zz"] has no digit and is part of no name of the sample
    catalog, yet [searchDrugs] returns both drugs the clinic has in stock;
    the text sent to the catalog falls back to the raw query when the NDC
    form is empty, and finds nothing. *)
Theorem searchDrugs_query_without_digits :
  normalizeNDC "zz" = "" /\
  Forall (fun d => JS.includes (JS.toLowerCase (medication_name d)) "zz" = false /\
                   match generic_name d with
                   | Some g => JS.includes (JS.toLowerCase g) "zz" = false
                   | None => True
                   end) catalog /\
  searchDrugsFilter "zz" "" =
    "ndc_id.ilike.%zz%,medication_name.ilike.%zz%,generic_name.ilike.%zz%" /\
  searchDrugs clinicStore "zz" "clinic-1" =
    Return [toResult aspirin true; toResult zinc true].
Proof.
  split_and!; try reflexivity. unfold catalog.
  repeat (apply Forall_cons;
          split; [split; [reflexivity | first [reflexivity | exact I]]|]).
  apply Forall_nil_2.
Qed.

Lemma inventoryMatch_throws `{Host} (q n : string) (d : DrugRow) (e : Thrown) :
  inventoryMatch q n d = Throw e -> e = TypeError.
Proof.
  unfold inventoryMatch. destruct (ndc_id d); simpl; [|by intros [= <-]].
  destruct (JS.includes (JS.toLowerCase (medication_name d)) _); simpl; [done|].
  destruct (generic_name d); simpl; [done | by intros [= <-]].
Qed.

Lemma inventoryLoop_null_ndc `{Host} (q n : string) (rows : list UnitRow)
    (acc : Acc (option string)) (u : UnitRow) (d : DrugRow) :
  u ∈ rows -> drug u = Some d -> ndc_id d = None ->
  inventoryLoop q n rows acc = Throw TypeError.
Proof.
  intros Hin Hdrug Hndc. revert acc.
  induction rows as [|u0 rows IH]; intros acc; [by apply elem_of_nil in Hin|].
  simpl. destruct (drug u0) as [d0|] eqn:Hdrug0.
  - destruct (inventoryMatch q n d0) as [b|e] eqn:Hmatch; simpl.
    + apply elem_of_cons in Hin as [-> | Hin]; [|by apply IH].
      apply inventoryMatch_ndc in Hmatch as [ndc Hsome]. congruence.
    + by apply inventoryMatch_throws in Hmatch as ->.
  - apply elem_of_cons in Hin as [-> | Hin]; [congruence | by apply IH].
Qed.

(** Whatever the query and the rest of the store, one unit in stock whose
    drug has no NDC makes [searchDrugs] throw. *)
Lemma searchDrugs_null_ndc_throws `{Host} (s : Store) (query clinicId : string)
    (u : UnitRow) (d : DrugRow) :
  tooShort query = false -> units_readable s = true ->
  u ∈ units s -> inStock clinicId u = true ->
  drug u = Some d -> ndc_id d = None ->
  searchDrugs s query clinicId = Throw TypeError.
Proof.
  intros Hquery Hread Hin Hstock Hdrug Hndc. unfold searchDrugs.
  unfold tooShort in Hquery. rewrite Hquery.
  unfold selectUnits, response. rewrite Hread.
  rewrite (inventoryLoop_null_ndc _ _ _ _ u d); [done| |done..].
  by apply list_elem_of_filter.
Qed.

(** C4. A unit in stock whose drug has no NDC makes [searchDrugs] throw, and
    so does one whose drug has no generic name when its medication name does
    not contain the query; [searchMedicationsByName] returns on both. *)
Theorem searchDrugs_null_fields :
  ndc_id saline = None /\
  searchDrugs (store [unitRow "u1" "clinic-1" 4 saline] catalog) "saline" "clinic-1" =
    Throw TypeError /\
  generic_name ointment = None /\
  searchDrugs (store [unitRow "u1" "clinic-1" 4 ointment] catalog) "aspirin" "clinic-1" =
    Throw TypeError /\
  searchDrugs (store [unitRow "u1" "clinic-1" 4 ointment] catalog) "zinc" "clinic-1" =
    Return [toResult ointment true; toResult zinc false] /\
  drugId <$> searchMedicationsByName
               (store [unitRow "u1" "clinic-1" 4 saline;
                       unitRow "u2" "clinic-1" 4 ointment] catalog)
               "oxide" "clinic-1" = ["d6"].
Proof. split_and!; reflexivity. Qed.

End Divergences.

(** ** getOrCreateDrug *)

Section Upsert.
Context `{Host}.
Implicit Types (s : Store) (drugData : DrugData).

Lemma single_Some {A} (P : A -> Prop) `{!forall x, Decision (P x)}
    (readable : bool) (rows : list A) (row : A) :
  single (response readable (filter P rows)) = Some row ->
  row ∈ rows /\ P row /\ filter P rows = [row].
Proof.
  unfold response. destruct readable; [|done]. simpl.
  destruct (filter P rows) as [|x [|y l]] eqn:Hfilter; try done.
  intros [= ->].
  assert (row ∈ filter P rows) as Hin by (rewrite Hfilter; left).
  apply list_elem_of_filter in Hin as [HP Hin]. done.
Qed.

Lemma existingDrug_Some s drugData d :
  existingDrug s drugData = Some d ->
  d ∈ drugs s /\ is_Some (ndc_id d) /\ ndc_id d = JS.truthy (d_ndcId drugData).
Proof.
  unfold existingDrug. destruct (JS.truthy (d_ndcId drugData)) as [ndc|]; [|done].
  unfold selectDrugsByNdc. intros (Hin & -> & _)%single_Some. eauto.
Qed.

Lemma similarDrug_Some s drugData d :
  similarDrug s drugData = Some d ->
  d ∈ drugs s /\
  ilike (medication_name d) (d_medicationName drugData) = true /\
  strength d = d_strength drugData /\
  strength_unit d = d_strengthUnit drugData /\
  form d = d_form drugData.
Proof.
  unfold similarDrug, selectDrugsSimilar. intros (Hin & Hsim & _)%single_Some.
  unfold similarTo in Hsim.
  repeat (apply andb_true_iff in Hsim as [Hsim ?%bool_decide_eq_true]). done.
Qed.

Lemma filter_none {A} (P : A -> Prop) `{!forall x, Decision (P x)} (l : list A) :
  (forall x, x ∈ l -> ~ P x) -> filter P l = [].
Proof.
  induction l as [|x l IH]; [done|]. intros Hl.
  rewrite filter_cons_False by (apply Hl; left).
  apply IH. intros y Hy. apply Hl. by right.
Qed.

Lemma filter_nil_not {A} (P : A -> Prop) `{!forall x, Decision (P x)} (l : list A) :
  filter P l = [] -> forall x, x ∈ l -> ~ P x.
Proof.
  intros Hnil x Hx HP.
  assert (x ∈ filter P l) as Hin by by apply list_elem_of_filter.
  rewrite Hnil in Hin. by apply elem_of_nil in Hin.
Qed.

Lemma filter_theOnly {A} (P : A -> Prop) `{!forall x, Decision (P x)}
    (l : list A) (d : A) :
  filter P l = [d] <-> theOnly P l d.
Proof.
  unfold theOnly. induction l as [|x l IH].
  - split; [done | by intros (i & Hi & _)].
  - destruct (decide (P x)) as [HPx | HPx].
    + rewrite filter_cons_True by done. split.
      * intros [= -> Hnil]. exists 0%nat. split_and!; [done | done |].
        intros [|j] d' Hj HP; [done|]. simpl in Hj. exfalso.
        eapply (filter_nil_not P l Hnil d'); [|done].
        by eapply list_elem_of_lookup_2.
      * intros (i & Hi & HPd & Huniq).
        assert (0%nat = i) as <- by by apply (Huniq 0%nat x).
        simpl in Hi. injection Hi as ->. f_equal. apply filter_none.
        intros y Hy HPy. apply list_elem_of_lookup_1 in Hy as [j Hj].
        by specialize (Huniq (S j) y Hj HPy).
    + rewrite filter_cons_False by done. rewrite IH. split.
      * intros (i & Hi & HPd & Huniq). exists (S i). split_and!; [done | done |].
        intros [|j] d' Hj HP; [simpl in Hj; by injection Hj as -> |].
        f_equal. by eapply Huniq.
      * intros (i & Hi & HPd & Huniq).
        destruct i as [|i]; [simpl in Hi; by injection Hi as -> |].
        exists i. split_and!; [done | done |].
        intros j d' Hj HP. specialize (Huniq (S j) d' Hj HP). lia.
Qed.

Lemma theOnly_iff {A} (P Q : A -> Prop) (l : list A) (d : A) :
  (forall x, P x <-> Q x) -> theOnly P l d <-> theOnly Q l d.
Proof.
  intros HPQ. unfold theOnly.
  split; intros (i & Hi & HPd & Huniq); exists i;
    (split_and!; [done | by apply HPQ |]);
    intros j d' Hj HP; apply (Huniq j d' Hj); by apply HPQ.
Qed.

Lemma single_theOnly {A} (P : A -> Prop) `{!forall x, Decision (P x)}
    (readable : bool) (rows : list A) (row : A) :
  single (response readable (filter P rows)) = Some row <->
  readable = true /\ theOnly P rows row.
Proof.
  rewrite <- (filter_theOnly P rows row).
  unfold response. destruct readable; simpl.
  - destruct (filter P rows) as [|x [|y l]]; split;
      first [done | by intros [= ->] | by intros [_ [= ->]] | by intros [_ [=]]].
  - split; [done | by intros [? _]].
Qed.

Lemma similarTo_similarRow drugData d :
  similarTo (d_medicationName drugData) (d_strength drugData)
    (d_strengthUnit drugData) (d_form drugData) d = true <->
  similarRow drugData d.
Proof.
  unfold similarTo, similarRow.
  rewrite !andb_true_iff, !bool_decide_eq_true. tauto.
Qed.

Lemma existingDrug_theOnly s drugData d :
  existingDrug s drugData = Some d <->
  drugs_readable s = true /\
  exists ndc,
    JS.truthy (d_ndcId drugData) = Some ndc /\
    theOnly (fun d' => ndc_id d' = Some ndc) (drugs s) d.
Proof.
  unfold existingDrug, selectDrugsByNdc.
  destruct (JS.truthy (d_ndcId drugData)) as [ndc|].
  - rewrite single_theOnly. split.
    + intros [Hread Honly]. eauto.
    + by intros [Hread (ndc' & [= <-] & Honly)].
  - split; [done | by intros [_ (ndc & ? & _)]].
Qed.

Lemma similarDrug_theOnly s drugData d :
  similarDrug s drugData = Some d <->
  drugs_readable s = true /\ theOnly (similarRow drugData) (drugs s) d.
Proof.
  unfold similarDrug, selectDrugsSimilar. rewrite single_theOnly.
  by rewrite (theOnly_iff _ (similarRow drugData) _ _
                (similarTo_similarRow drugData)).
Qed.

(** C9, as the code has it. [getOrCreateDrug] throws exactly when neither
    lookup yields a row and the insert fails, with the message of the store;
    otherwise it returns the identifier of the row found by the supplied
    NDC, else of the row found by name, strength, unit and form, else of the
    row inserted, whose generic name is the medication name when none was
    supplied. A lookup yields a row exactly when the catalog can be read and
    that row is the only one that matches: the only row carrying the
    supplied NDC, or the only row with the name (as an ILIKE pattern), the
    strength, the unit and the form. A lookup that yields a row leaves the
    catalog as it was; an insert adds the new row to it. *)
Theorem getOrCreateDrug_outcome s drugData :
  (forall e,
     (getOrCreateDrug s drugData).1 = Throw e <->
     existingDrug s drugData = None /\ similarDrug s drugData = None /\
     exists message,
       insertAnswer s (newRow drugData) = inl message /\
       e = Error ("Failed to create drug: " +:+ message)) /\
  (forall id,
     (getOrCreateDrug s drugData).1 = Return id <->
     match existingDrug s drugData, similarDrug s drugData with
     | Some d, _ => id = drug_id d
     | None, Some d => id = drug_id d
     | None, None => insertAnswer s (newRow drugData) = inr id
     end) /\
  (forall d,
     existingDrug s drugData = Some d <->
     drugs_readable s = true /\
     exists ndc,
       JS.truthy (d_ndcId drugData) = Some ndc /\
       theOnly (fun d' => ndc_id d' = Some ndc) (drugs s) d) /\
  (forall d,
     similarDrug s drugData = Some d <->
     drugs_readable s = true /\ theOnly (similarRow drugData) (drugs s) d) /\
  ins_generic_name (newRow drugData) =
    default (d_medicationName drugData) (JS.truthy (d_genericName drugData)) /\
  (is_Some (existingDrug s drugData) \/ is_Some (similarDrug s drugData) ->
   (getOrCreateDrug s drugData).2 = s) /\
  (forall id,
     existingDrug s drugData = None -> similarDrug s drugData = None ->
     insertAnswer s (newRow drugData) = inr id ->
     drugs (getOrCreateDrug s drugData).2 =
       drugs s ++ [inserted id (newRow drugData)]).
Proof.
  split_and!.
  - intros e. unfold getOrCreateDrug.
    destruct (existingDrug s drugData) as [d|]; simpl;
      [split; [done | by intros [? _]]|].
    destruct (similarDrug s drugData) as [d|]; simpl;
      [split; [done | by intros (_ & ? & _)]|].
    destruct (insertAnswer s (newRow drugData)) as [message|id]; simpl.
    + split; [intros [= <-]; eauto | by intros (_ & _ & m & [= <-] & ->)].
    + split; [done | by intros (_ & _ & m & ? & _)].
  - intros id. unfold getOrCreateDrug.
    destruct (existingDrug s drugData) as [d|]; simpl;
      [split; [by intros [= <-] | by intros ->]|].
    destruct (similarDrug s drugData) as [d|]; simpl;
      [split; [by intros [= <-] | by intros ->]|].
    destruct (insertAnswer s (newRow drugData)) as [message|id']; simpl;
      split; (done || by intros [= <-]).
  - apply existingDrug_theOnly.
  - apply similarDrug_theOnly.
  - unfold newRow. simpl. by destruct (JS.truthy (d_genericName drugData)).
  - unfold getOrCreateDrug.
    destruct (existingDrug s drugData) as [d|]; [done|].
    destruct (similarDrug s drugData) as [d|]; [done|].
    by intros [[? [=]] | [? [=]]].
  - intros id Hexisting Hsimilar Hinsert. unfold getOrCreateDrug.
    by rewrite Hexisting, Hsimilar, Hinsert.
Qed.

End Upsert.

Section UpsertOnSample.
Import Sample.

(** C9, as the specification has it, fails: two rows of the catalog carry
    the supplied NDC, the lookup by NDC yields none of them, no row is
    similar, and the identifier returned is that of a row inserted, which no
    row of the catalog had. *)
Lemma getOrCreateDrug_match_not_returned :
  let s := store [] (catalog ++ [zincAgain]) in
  let drugData :=
    drugDataOf "Zinc 50" None 50 "mg" (Some "22222-2222-22") "capsule" in
  zinc ∈ drugs s /\ ndc_id zinc = d_ndcId drugData /\
  zincAgain ∈ drugs s /\ ndc_id zincAgain = d_ndcId drugData /\
  existingDrug s drugData = None /\
  getOrCreateDrug s drugData =
    (Return "new-Zinc 50", withDrug s (inserted "new-Zinc 50" (newRow drugData))) /\
  "new-Zinc 50" ∉ drug_id <$> drugs s.
Proof.
  cbv zeta. split_and!; try reflexivity.
  - apply list_elem_of_In. simpl. tauto.
  - apply list_elem_of_In. simpl. tauto.
  - intros Hin. apply list_elem_of_In in Hin. simpl in Hin.
    repeat (destruct Hin as [Hin | Hin]; [discriminate|]). done.
Qed.

(** With one row of the NDC, that row is found: zinc for its NDC, whatever
    the name supplied. *)
Lemma getOrCreateDrug_only_row_of_ndc :
  let drugData :=
    drugDataOf "Zinc 50" None 50 "mg" (Some "22222-2222-22") "capsule" in
  theOnly (fun d => ndc_id d = Some "22222-2222-22") (drugs clinicStore) zinc /\
  existingDrug clinicStore drugData = Some zinc /\
  getOrCreateDrug clinicStore drugData = (Return "d2", clinicStore).
Proof.
  cbv zeta.
  assert (Honly : theOnly (fun d => ndc_id d = Some "22222-2222-22")
                    (drugs clinicStore) zinc).
  { exists 1%nat. split_and!; [reflexivity | reflexivity |].
    intros j d' Hj Hndc.
    do 6 (destruct j as [|j]; [injection Hj as <-; first [done | discriminate]|]).
    discriminate. }
  destruct (getOrCreateDrug_outcome clinicStore
              (drugDataOf "Zinc 50" None 50 "mg" (Some "22222-2222-22") "capsule"))
    as (_ & _ & Hexisting & _).
  split_and!; [exact Honly | | reflexivity].
  apply Hexisting. split; [reflexivity|].
  exists "22222-2222-22". split; [reflexivity | exact Honly].
Defined.

(** The three ways of returning and the one of throwing, on the sample. *)
Lemma getOrCreateDrug_sample :
  (getOrCreateDrug clinicStore
     (drugDataOf "Zinc sulfate" None 50 "mg" (Some "22222-2222-22") "tablet")).1
    = Return "d2" /\
  (getOrCreateDrug clinicStore
     (drugDataOf "ASPIRIN" None 81 "mg" None "tablet")).1 = Return "d1" /\
  (getOrCreateDrug clinicStore
     (drugDataOf "Ibuprofen" None 200 "mg" None "tablet")).1
    = Return "new-Ibuprofen" /\
  last (drugs (getOrCreateDrug clinicStore
                 (drugDataOf "Ibuprofen" None 200 "mg" None "tablet")).2)
    = Some (drugRow "new-Ibuprofen" "Ibuprofen" (Some "Ibuprofen") 200 "mg"
              None "tablet") /\
  (getOrCreateDrug clinicStore (drugDataOf "" None 1 "mg" None "tablet")).1
    = Throw (Error "Failed to create drug: null value in column medication_name").
Proof. split_and!; reflexivity. Qed.

End UpsertOnSample.

(** * Further properties *)

Import Lot Notions.

(** ** Characters and strings *)

Section MoreStringFacts.

Lemma upperChar_idemp c : JS.upperChar (JS.upperChar c) = JS.upperChar c.
Proof. destruct c as [[] [] [] [] [] [] [] []]; reflexivity. Qed.
Lemma upperChar_lowerChar c : JS.upperChar (JS.lowerChar c) = JS.upperChar c.
Proof. destruct c as [[] [] [] [] [] [] [] []]; reflexivity. Qed.
Lemma lowerChar_upperChar c : JS.lowerChar (JS.upperChar c) = JS.lowerChar c.
Proof. destruct c as [[] [] [] [] [] [] [] []]; reflexivity. Qed.
Lemma lowerChar_idemp c : JS.lowerChar (JS.lowerChar c) = JS.lowerChar c.
Proof. destruct c as [[] [] [] [] [] [] [] []]; reflexivity. Qed.
Lemma isSpace_upperChar c : JS.isSpace (JS.upperChar c) = JS.isSpace c.
Proof. destruct c as [[] [] [] [] [] [] [] []]; reflexivity. Qed.
Lemma isSpace_lowerChar c : JS.isSpace (JS.lowerChar c) = JS.isSpace c.
Proof. destruct c as [[] [] [] [] [] [] [] []]; reflexivity. Qed.
Lemma upperChar_alnum c : JS.isAlnum c = true -> isCodeChar (JS.upperChar c) = true.
Proof. destruct c as [[] [] [] [] [] [] [] []]; by vm_compute. Qed.
Lemma upper_without_dash c : JS.isUpper c = true -> JS.isChar "-" c = false.
Proof. destruct c as [[] [] [] [] [] [] [] []]; by vm_compute. Qed.
Lemma codeChar_without_dash c : isCodeChar c = true -> JS.isChar "-" c = false.
Proof. destruct c as [[] [] [] [] [] [] [] []]; by vm_compute. Qed.
Lemma digit_without_dash c : JS.isDigit c = true -> JS.isChar "-" c = false.
Proof. destruct c as [[] [] [] [] [] [] [] []]; by vm_compute. Qed.

Lemma map_map (f g : ascii -> ascii) (s : string) :
  JS.map f (JS.map g s) = JS.map (fun c => f (g c)) s.
Proof. induction s as [|c s IH]; simpl; [done | by rewrite IH]. Qed.

Lemma map_ext (f g : ascii -> ascii) (s : string) :
  (forall c, f c = g c) -> JS.map f s = JS.map g s.
Proof. intros Hfg. induction s as [|c s IH]; simpl; [done | by rewrite Hfg, IH]. Qed.

Lemma toUpperCase_idemp s : JS.toUpperCase (JS.toUpperCase s) = JS.toUpperCase s.
Proof. unfold JS.toUpperCase. rewrite map_map. apply map_ext, upperChar_idemp. Qed.

Lemma toLowerCase_toUpperCase s :
  JS.toLowerCase (JS.toUpperCase s) = JS.toLowerCase s.
Proof.
  unfold JS.toLowerCase, JS.toUpperCase. rewrite map_map.
  apply map_ext, lowerChar_upperChar.
Qed.

Lemma toLowerCase_idemp s : JS.toLowerCase (JS.toLowerCase s) = JS.toLowerCase s.
Proof. unfold JS.toLowerCase. rewrite map_map. apply map_ext, lowerChar_idemp. Qed.

Lemma sfilter_app (p : ascii -> bool) (s t : string) :
  JS.filter p (s +:+ t) = JS.filter p s +:+ JS.filter p t.
Proof.
  induction s as [|c s IH]; [done|].
  change (String c s +:+ t) with (String c (s +:+ t)). simpl.
  destruct (p c); [|done].
  change (String c (JS.filter p s) +:+ JS.filter p t)
    with (String c (JS.filter p s +:+ JS.filter p t)). by rewrite IH.
Qed.

Lemma allOf_filter (p : ascii -> bool) (s : string) :
  allOf p (JS.filter p s) = true.
Proof.
  induction s as [|c s IH]; simpl; [done|].
  destruct (p c) eqn:Hc; simpl; [by rewrite Hc | done].
Qed.

Lemma filter_all (p : ascii -> bool) (s : string) :
  allOf p s = true -> JS.filter p s = s.
Proof.
  induction s as [|c s IH]; simpl; [done|].
  intros [-> Hs]%andb_true_iff. by rewrite IH.
Qed.

Lemma allOf_app (p : ascii -> bool) (s t : string) :
  allOf p (s +:+ t) = allOf p s && allOf p t.
Proof.
  induction s as [|c s IH]; [done|].
  change (String c s +:+ t) with (String c (s +:+ t)). simpl.
  by rewrite IH, andb_assoc.
Qed.

Lemma allOf_impl (p q : ascii -> bool) (s : string) :
  (forall c, p c = true -> q c = true) -> allOf p s = true -> allOf q s = true.
Proof.
  intros Hpq. induction s as [|c s IH]; simpl; [done|].
  intros [Hc Hs]%andb_true_iff. by rewrite (Hpq _ Hc), IH.
Qed.

Lemma allOf_substring0 (p : ascii -> bool) (n : nat) (s : string) :
  allOf p s = true -> allOf p (JS.substring0 n s) = true.
Proof.
  revert s. induction n as [|n IH]; intros [|c s]; simpl; try done.
  intros [-> Hs]%andb_true_iff. by apply IH.
Qed.

Lemma allOf_drop (p : ascii -> bool) (n : nat) (s : string) :
  allOf p s = true -> allOf p (JS.drop n s) = true.
Proof.
  revert s. induction n as [|n IH]; intros [|c s]; simpl; try done.
  intros [_ Hs]%andb_true_iff. by apply IH.
Qed.

Lemma allOf_repeat (p : ascii -> bool) (c : ascii) (n : nat) :
  p c = true -> allOf p (JS.repeat c n) = true.
Proof. intros Hc. induction n as [|n IH]; simpl; [done | by rewrite Hc]. Qed.

Lemma allOf_map (p q : ascii -> bool) (f : ascii -> ascii) (s : string) :
  (forall c, p c = true -> q (f c) = true) ->
  allOf p s = true -> allOf q (JS.map f s) = true.
Proof.
  intros Hf. induction s as [|c s IH]; simpl; [done|].
  intros [Hc Hs]%andb_true_iff. by rewrite (Hf _ Hc), IH.
Qed.

End MoreStringFacts.

(** ** NDC normalization *)

(** X1. [normalizeNDC] keeps the digits and nothing else, leaves a string of
    digits as it is, is idempotent, and works piece by piece: the digits of
    a concatenation are the digits of its parts. *)
Theorem normalizeNDC_digits (x y : string) :
  allOf JS.isDigit (normalizeNDC x) = true /\
  normalizeNDC (normalizeNDC x) = normalizeNDC x /\
  normalizeNDC (x +:+ y) = normalizeNDC x +:+ normalizeNDC y /\
  (allOf JS.isDigit x = true <-> normalizeNDC x = x).
Proof.
  unfold normalizeNDC. split_and!.
  - apply allOf_filter.
  - apply filter_all, allOf_filter.
  - apply sfilter_app.
  - split; [apply filter_all|]. intros <-. apply allOf_filter.
Qed.

(** ** Lot codes and their descriptions *)

Section LotCodes.

Lemma length_three (c1 c2 c3 : ascii) (r : string) :
  (2 <? JS.length (String c1 (String c2 (String c3 r)))) = true.
Proof. unfold JS.length. simpl String.length. apply Z.ltb_lt. lia. Qed.

Lemma validateLotCode_one (c1 : ascii) (b : bool) :
  validateLotCode (String c1 "") b = JS.isUpper (JS.upperChar c1) && negb b.
Proof.
  unfold validateLotCode. cbn.
  by destruct (JS.isUpper (JS.upperChar c1)), b.
Qed.

Lemma validateLotCode_two (c1 c2 : ascii) (b : bool) :
  validateLotCode (String c1 (String c2 "")) b =
  JS.isUpper (JS.upperChar c1) && isLR (Some (JS.upperChar c2)).
Proof.
  unfold validateLotCode. cbn.
  by destruct (JS.isUpper (JS.upperChar c1)),
       (JS.isChar "L" (JS.upperChar c2)), (JS.isChar "R" (JS.upperChar c2)), b.
Qed.

Lemma validateLotCode_long (c1 c2 c3 : ascii) (r : string) (b : bool) :
  validateLotCode (String c1 (String c2 (String c3 r))) b = false.
Proof.
  unfold validateLotCode. rewrite length_three.
  cbn [JS.isEmpty]. by rewrite orb_true_r.
Qed.

Lemma isLR_spec (c : ascii) :
  isLR (Some c) = true <-> c = "L"%char \/ c = "R"%char.
Proof. unfold isLR. by rewrite orb_true_iff, !isChar_eq. Qed.

(** X2. Of the lot codes in ASCII, [validateLotCode] accepts exactly the
    codes of one character in A-Z or a-z when no location is required, and
    the codes of two characters, the first in A-Z or a-z and the second one
    of L, R, l, r; a code accepted when the location is required is accepted
    when it is not. *)
Theorem validateLotCode_accepts (lotCode : string) (requireLocation : bool) :
  isAscii lotCode = true ->
  (validateLotCode lotCode requireLocation = true <->
   exists c1,
     JS.isUpper (JS.upperChar c1) = true /\
     ((lotCode = String c1 "" /\ requireLocation = false) \/
      exists c2,
        lotCode = String c1 (String c2 "") /\
        (JS.upperChar c2 = "L"%char \/ JS.upperChar c2 = "R"%char))) /\
  (validateLotCode lotCode true = true -> validateLotCode lotCode false = true).
Proof.
  intros _. split.
  - destruct lotCode as [|c1 [|c2 [|c3 r]]].
    + split; [done | by intros (c1 & _ & [[? _] | (c2 & ? & _)])].
    + rewrite validateLotCode_one, andb_true_iff, negb_true_iff. split.
      * intros [Hc1 ->]. exists c1. split; [done | by left].
      * intros (c & Hc & [[[= <-] ->] | (c2 & ? & _)]); done.
    + rewrite validateLotCode_two, andb_true_iff, isLR_spec. split.
      * intros [Hc1 Hc2]. exists c1. split; [done|]. right. by exists c2.
      * intros (c & Hc & [[? _] | (c' & [= <- <-] & Hc')]); done.
    + rewrite validateLotCode_long.
      split; [done | by intros (c & _ & [[? _] | (c' & ? & _)])].
  - destruct lotCode as [|c1 [|c2 [|c3 r]]]; try done.
    + by rewrite !validateLotCode_one, andb_false_r.
    + by rewrite !validateLotCode_two.
    + by rewrite !validateLotCode_long.
Qed.

(** The code ["cR"] is accepted with the location required. *)
Lemma validateLotCode_accepts_cR :
  isAscii "cR" = true /\ validateLotCode "cR" true = true.
Proof.
  split; [reflexivity|].
  apply (proj1 (validateLotCode_accepts "cR" true eq_refl)).
  exists "c"%char. split; [reflexivity|]. right.
  exists "R"%char. split; [reflexivity | by right].
Defined.

(** The description of a code of at least one character. *)
Lemma getLotDescription_cons (c1 : ascii) (r : string) :
  getLotDescription (String c1 r) =
  "Drawer " +:+ String (JS.upperChar c1) "" +:+
  match sideOf (String c1 r) with
  | Some c => if JS.isChar "L" c then " Left"
              else if JS.isChar "R" c then " Right" else ""
  | None => ""
  end.
Proof.
  unfold getLotDescription.
  assert ((JS.length (String c1 r) <? 1) = false) as ->.
  { unfold JS.length. simpl String.length. apply Z.ltb_ge. lia. }
  cbn [JS.isEmpty orb drawerOf charOrEmpty].
  rewrite sapp_assoc. f_equal. f_equal.
  destruct (sideOf (String c1 r)) as [c|]; cbn [charOrEmpty]; [|done].
  destruct (JS.isChar "L" c) eqn:HL.
  { apply isChar_eq in HL as ->. done. }
  rewrite bool_decide_eq_false_2.
  2:{ intros [= ->]. by rewrite (proj2 (isChar_eq _ _) eq_refl) in HL. }
  destruct (JS.isChar "R" c) eqn:HR.
  { apply isChar_eq in HR as ->. done. }
  rewrite bool_decide_eq_false_2; [done|].
  intros [= ->]. by rewrite (proj2 (isChar_eq _ _) eq_refl) in HR.
Qed.

Lemma sideOf_map (f : ascii -> ascii) (s : string) :
  (forall c, JS.upperChar (f c) = JS.upperChar c) ->
  sideOf (JS.map f s) = sideOf s.
Proof. intros Hf. destruct s as [|c1 [|c2 r]]; simpl; by rewrite ?Hf. Qed.

Lemma lotCode_map (f : ascii -> ascii) (lotCode : string) (b : bool) :
  (forall c, JS.upperChar (f c) = JS.upperChar c) ->
  validateLotCode (JS.map f lotCode) b = validateLotCode lotCode b /\
  getLotDescription (JS.map f lotCode) = getLotDescription lotCode.
Proof.
  intros Hf. split.
  - destruct lotCode as [|c1 [|c2 [|c3 r]]]; simpl; [done|..].
    + by rewrite !validateLotCode_one, Hf.
    + by rewrite !validateLotCode_two, !Hf.
    + by rewrite !validateLotCode_long.
  - destruct lotCode as [|c1 r]; [done|].
    pose proof (sideOf_map f (String c1 r) Hf) as Hside. simpl JS.map in *.
    by rewrite !getLotDescription_cons, Hside, Hf.
Qed.

(** X3. Lot codes in ASCII are read without regard to case: upper-casing
    or lower-casing such a code changes neither its validity nor its
    description. *)
Theorem lotCode_case_insensitive (lotCode : string) (requireLocation : bool) :
  isAscii lotCode = true ->
  validateLotCode (JS.toUpperCase lotCode) requireLocation =
    validateLotCode lotCode requireLocation /\
  validateLotCode (JS.toLowerCase lotCode) requireLocation =
    validateLotCode lotCode requireLocation /\
  getLotDescription (JS.toUpperCase lotCode) = getLotDescription lotCode /\
  getLotDescription (JS.toLowerCase lotCode) = getLotDescription lotCode.
Proof.
  intros _.
  pose proof (lotCode_map JS.upperChar lotCode requireLocation upperChar_idemp)
    as [Hv1 Hd1].
  pose proof (lotCode_map JS.lowerChar lotCode requireLocation upperChar_lowerChar)
    as [Hv2 Hd2].
  done.
Qed.

(** The codes ["bl"] and ["BL"] are both accepted, and described alike. *)
Lemma lotCode_case_insensitive_bl :
  isAscii "bl" = true /\
  validateLotCode "BL" true = validateLotCode "bl" true /\
  getLotDescription "BL" = getLotDescription "bl".
Proof.
  split; [reflexivity|].
  destruct (lotCode_case_insensitive "bl" true eq_refl) as (Hv & _ & Hd & _).
  split; [exact Hv | exact Hd].
Defined.

(** X4. A code in ASCII accepted by [validateLotCode] is described as its
    drawer letter in upper case, followed by Left or Right when it has a
    second character: the description of such a code never says Unknown. *)
Theorem getLotDescription_valid (lotCode : string) (requireLocation : bool) :
  isAscii lotCode = true ->
  validateLotCode lotCode requireLocation = true ->
  exists d : ascii,
    JS.isUpper d = true /\ drawerOf lotCode = Some d /\
    ((String.length lotCode = 1%nat /\ requireLocation = false /\
      getLotDescription lotCode = "Drawer " +:+ String d "") \/
     (String.length lotCode = 2%nat /\ sideOf lotCode = Some "L"%char /\
      getLotDescription lotCode = "Drawer " +:+ String d "" +:+ " Left") \/
     (String.length lotCode = 2%nat /\ sideOf lotCode = Some "R"%char /\
      getLotDescription lotCode = "Drawer " +:+ String d "" +:+ " Right")).
Proof.
  intros _. destruct lotCode as [|c1 [|c2 [|c3 r]]]; [done|..].
  - rewrite validateLotCode_one. intros [Hc1 ->%negb_true_iff]%andb_true_iff.
    exists (JS.upperChar c1). split_and!; [done..|]. left.
    by rewrite getLotDescription_cons, sapp_nil_r.
  - rewrite validateLotCode_two.
    intros [Hc1 [Hc2 | Hc2]%isLR_spec]%andb_true_iff;
      exists (JS.upperChar c1); (split_and!; [done..|]);
      rewrite getLotDescription_cons; cbn [sideOf]; rewrite Hc2.
    + right; left. by split_and!.
    + right; right. by split_and!.
  - by rewrite validateLotCode_long.
Qed.

(** The code ["bl"] is accepted with the location required. *)
Lemma getLotDescription_valid_bl :
  isAscii "bl" = true /\
  validateLotCode "bl" true = true /\
  getLotDescription "bl" = "Drawer B Left".
Proof.
  split_and!; [reflexivity | reflexivity |].
  destruct (getLotDescription_valid "bl" true eq_refl eq_refl)
    as (d & _ & [= <-] & [(? & _) | [(_ & _ & Hd) | (_ & ? & _)]]);
    [discriminate | exact Hd | discriminate].
Defined.

(** X5. [getLotDescription] answers Unknown Location exactly on the empty
    code; on any other code in ASCII it names the drawer of the first
    character, upper-cased, and reads the side off the second character
    alone; it ignores the characters after the second. *)
Theorem getLotDescription_any (lotCode : string) :
  (getLotDescription lotCode = "Unknown Location" <-> lotCode = "") /\
  (forall c1 r,
     lotCode = String c1 r -> isAscii lotCode = true ->
     exists sideName,
       getLotDescription lotCode =
         "Drawer " +:+ String (JS.upperChar c1) "" +:+ sideName /\
       (sideName = " Left" /\ sideOf lotCode = Some "L"%char \/
        sideName = " Right" /\ sideOf lotCode = Some "R"%char \/
        sideName = "" /\ sideOf lotCode <> Some "L"%char /\
          sideOf lotCode <> Some "R"%char)) /\
  (forall c1 c2 r,
     lotCode = String c1 (String c2 r) ->
     getLotDescription lotCode = getLotDescription (String c1 (String c2 ""))).
Proof.
  split_and!.
  - destruct lotCode as [|c1 r]; [done|].
    rewrite getLotDescription_cons. split; [|done].
    change ("Drawer " +:+ ?x) with (String "D" ("rawer " +:+ x)). done.
  - intros c1 r -> _. rewrite getLotDescription_cons.
    destruct (sideOf (String c1 r)) as [c|] eqn:Hside.
    + destruct (JS.isChar "L" c) eqn:HL.
      { apply isChar_eq in HL as ->. exists " Left". split; [done|]. by left. }
      destruct (JS.isChar "R" c) eqn:HR.
      { apply isChar_eq in HR as ->. exists " Right". split; [done|].
        right. by left. }
      exists "". split; [done|]. right. right. split_and!; [done|..];
        intros [= ->]; by rewrite (proj2 (isChar_eq _ _) eq_refl) in *.
    + exists "". split; [done|]. right. right. done.
  - intros c1 c2 r ->. by rewrite !getLotDescription_cons.
Qed.

End LotCodes.

(** ** Composite codes, field by field *)

Section CodeFields.

Lemma pretty_N_char_digit (x : N) : JS.isDigit (pretty_N_char x) = true.
Proof. unfold pretty_N_char. by repeat case_match. Qed.

Lemma pretty_N_go_digits (x : N) (s : string) :
  allOf JS.isDigit s = true -> allOf JS.isDigit (pretty_N_go x s) = true.
Proof.
  revert s. induction (N.lt_wf_0 x) as [x _ IH]; intros s Hs.
  assert (x = 0 \/ 0 < x)%N as [-> | Hpos] by lia.
  - by rewrite pretty_N_go_0.
  - rewrite pretty_N_go_step by done. apply IH; [by apply N.div_lt|].
    simpl. by rewrite pretty_N_char_digit.
Qed.

Lemma ofInt_digits (n : Z) : 0 <= n -> allOf JS.isDigit (JS.ofInt n) = true.
Proof.
  intros Hn. destruct n as [|p|p]; [done| |lia].
  unfold JS.ofInt, pretty, pretty_Z, pretty, pretty_positive, pretty, pretty_N.
  rewrite decide_False by done. by apply pretty_N_go_digits.
Qed.

Lemma padStart_digits (n : Z) :
  0 <= n -> allOf JS.isDigit (JS.padStart 2 "0" (JS.ofInt n)) = true.
Proof.
  intros Hn. unfold JS.padStart.
  by rewrite allOf_app, allOf_repeat, ofInt_digits.
Qed.

Lemma dateStr_digits (date : JSDate) :
  0 <= getMonth date -> 0 <= getDate date -> 0 <= getFullYear date ->
  allOf JS.isDigit (dateStr date) = true.
Proof.
  intros Hm Hd Hy. unfold dateStr.
  rewrite !allOf_app, !padStart_digits by lia. unfold JS.sliceLast.
  by rewrite allOf_drop by by apply ofInt_digits.
Qed.

Lemma allOf_and (p q r : ascii -> bool) (s : string) :
  (forall c, p c = true -> q c = true -> r c = true) ->
  allOf p s = true -> allOf q s = true -> allOf r s = true.
Proof.
  intros Hpq. induction s as [|c s IH]; simpl; [done|].
  intros [Hp Hs]%andb_true_iff [Hq Hs']%andb_true_iff.
  by rewrite (Hpq _ Hp Hq), IH.
Qed.

Lemma allOf_span_fst (p q : ascii -> bool) (s : string) :
  allOf q s = true -> allOf q (JS.span p s).1 = true.
Proof.
  destruct (JS.span p s) as [a b] eqn:Hspan.
  apply span_spec in Hspan as (-> & _ & _).
  rewrite allOf_app. by intros [? _]%andb_true_iff.
Qed.

Lemma span_fst_all (p : ascii -> bool) (s : string) :
  allOf p (JS.span p s).1 = true.
Proof.
  destruct (JS.span p s) as [a b] eqn:Hspan.
  by apply span_spec in Hspan as (_ & ? & _).
Qed.

Lemma medCode_chars (medicationName : string) :
  allOf isCodeChar (medCode medicationName) = true.
Proof.
  unfold medCode, JS.padEnd, JS.toUpperCase.
  rewrite allOf_app, allOf_repeat by done. rewrite andb_true_r.
  apply (allOf_map JS.isAlnum); [apply upperChar_alnum|].
  apply allOf_substring0, allOf_filter.
Qed.

Lemma doseNum_chars (dosage : string) : allOf JS.isDigit (doseNum dosage) = true.
Proof.
  unfold doseNum, JS.padStart, JS.splitFirst.
  apply allOf_substring0. rewrite allOf_app, allOf_repeat by done.
  eapply (allOf_and (fun c => negb (JS.isChar "." c))
            (fun c => JS.isDigit c || JS.isChar "." c)).
  - intros c Hdot Hc. apply negb_true_iff in Hdot. rewrite Hdot in Hc.
    by rewrite orb_false_r in Hc.
  - apply span_fst_all.
  - apply allOf_span_fst, allOf_filter.
Qed.

(** X6. Whatever the medication name and the dosage, the medication code is
    four characters of A-Z and 0-9 and the dose code is two digits. *)
Theorem code_alphabets (medicationName dosage : string) :
  String.length (medCode medicationName) = 4%nat /\
  allOf isCodeChar (medCode medicationName) = true /\
  String.length (doseNum dosage) = 2%nat /\
  allOf JS.isDigit (doseNum dosage) = true.
Proof.
  split_and!;
    [apply medCode_length | apply medCode_chars
    | apply doseNum_length | apply doseNum_chars].
Qed.

Lemma splitOn_without (d : ascii) (a : string) :
  without d a = true -> Sample.splitOn d a = [a].
Proof.
  unfold without. induction a as [|c a IH]; simpl; [done|].
  intros [Hc Ha]%andb_true_iff. apply negb_true_iff in Hc.
  by rewrite Hc, IH.
Qed.

Lemma splitOn_app (d : ascii) (a b : string) :
  without d a = true ->
  Sample.splitOn d (a +:+ String d b) = a :: Sample.splitOn d b.
Proof.
  unfold without. induction a as [|c a IH]; simpl.
  - intros _. change ("" +:+ String d b) with (String d b). simpl.
    by rewrite (proj2 (isChar_eq d d) eq_refl).
  - intros [Hc Ha]%andb_true_iff. apply negb_true_iff in Hc.
    change (String c a +:+ String d b) with (String c (a +:+ String d b)).
    simpl. by rewrite Hc, IH.
Qed.

Lemma without_dash (p : ascii -> bool) (s : string) :
  (forall c, p c = true -> JS.isChar "-" c = false) ->
  allOf p s = true -> without "-" s = true.
Proof.
  intros Hp. apply allOf_impl. intros c Hc. by rewrite (Hp c Hc).
Qed.

Lemma lotCode_without_dash (lotCode : string) (b : bool) :
  validateLotCode lotCode b = true -> without "-" (JS.toUpperCase lotCode) = true.
Proof.
  destruct lotCode as [|c1 [|c2 [|c3 r]]]; [done|..].
  - rewrite validateLotCode_one. intros [Hc1 _]%andb_true_iff.
    unfold without. simpl. by rewrite (upper_without_dash _ Hc1).
  - rewrite validateLotCode_two. intros [Hc1 Hc2]%andb_true_iff.
    unfold without. simpl. rewrite (upper_without_dash _ Hc1). simpl.
    apply isLR_spec in Hc2 as [-> | ->]; done.
  - by rewrite validateLotCode_long.
Qed.

(** X7. The composite code of an accepted lot code in ASCII, of a date with
    non-negative fields and of an integer sequence number below 2^53, if
    any, falls apart at its dashes into exactly the fields it was built
    from: the lot code in upper case, the date, the medication code, the
    dose code and, for a positive sequence number, that number. *)
Theorem generateQRCode_fields (lotCode : string) (requireLocation : bool)
    (date : JSDate) (medicationName dosage : string) (sequence : option Z) :
  isAscii lotCode = true ->
  validateLotCode lotCode requireLocation = true ->
  0 <= getMonth date -> 0 <= getDate date -> 0 <= getFullYear date ->
  printable sequence ->
  fields (generateQRCode lotCode date medicationName dosage sequence) =
    [JS.toUpperCase lotCode; dateStr date; medCode medicationName; doseNum dosage] ++
    match sequence with
    | Some n => if 0 <? n then [JS.padStart 2 "0" (JS.ofInt n)] else []
    | None => []
    end.
Proof.
  intros _ Hlot Hm Hd Hy _. unfold fields, generateQRCode.
  pose proof (lotCode_without_dash _ _ Hlot) as H1.
  pose proof (without_dash _ _ digit_without_dash (dateStr_digits _ Hm Hd Hy)) as H2.
  pose proof (without_dash _ _ codeChar_without_dash (medCode_chars medicationName)) as H3.
  pose proof (without_dash _ _ digit_without_dash (doseNum_chars dosage)) as H4.
  assert (forall x : string, "-" +:+ x = String "-" x) as Hdash by done.
  destruct sequence as [n|]; [destruct (0 <? n) eqn:Hn|].
  - apply Z.ltb_lt in Hn.
    pose proof (without_dash _ _ digit_without_dash
                  (padStart_digits n ltac:(lia))) as H5.
    rewrite !sapp_assoc, !Hdash.
    by rewrite !splitOn_app, splitOn_without.
  - rewrite !Hdash. by rewrite !splitOn_app, splitOn_without.
  - rewrite !Hdash. by rewrite !splitOn_app, splitOn_without.
Qed.

(** The code of the documentation, read back. *)
Lemma generateQRCode_fields_amlodipine :
  fields (generateQRCode "bl" {| getFullYear := 2026; getMonth := 1; getDate := 5 |}
            "Amlodipine" "5mg" (Some 2)) =
    ["BL"; "020526"; "AMLO"; "05"; "02"].
Proof.
  apply (generateQRCode_fields "bl" true
           {| getFullYear := 2026; getMonth := 1; getDate := 5 |}
           "Amlodipine" "5mg" (Some 2));
    [reflexivity | reflexivity | simpl; lia | simpl; lia | simpl; lia |].
  intros n [= <-]. lia.
Defined.

(** X8. For a lot code in ASCII and a calendar date of a four-digit year
    the composite code has a fixed width: fifteen characters after the lot
    code when no sequence number or an integer that is not positive is
    given, and three more when an integer from 1 to 99 is given. *)
Theorem generateQRCode_width (lotCode : string) (date : JSDate)
    (medicationName dosage : string) (sequence : option Z) :
  isAscii lotCode = true ->
  0 <= getMonth date <= 11 -> 1 <= getDate date <= 31 ->
  1000 <= getFullYear date <= 9999 ->
  (match sequence with Some n => n <= 0 | None => True end ->
   String.length (generateQRCode lotCode date medicationName dosage sequence) =
     (String.length lotCode + 15)%nat) /\
  (forall n, sequence = Some n -> 1 <= n <= 99 ->
     String.length (generateQRCode lotCode date medicationName dosage sequence) =
       (String.length lotCode + 18)%nat).
Proof.
  intros _ Hm Hd Hy.
  assert (String.length (dateStr date) = 6%nat) as Hdate.
  { unfold dateStr.
    by rewrite !length_app, !twoDigits_length, twoDigitYear_length by lia. }
  split.
  - intros Hseq. unfold generateQRCode.
    assert (match sequence with
            | Some n => if 0 <? n then false else true
            | None => true
            end = true) as Hbase.
    { destruct sequence as [n|]; [|done]. by rewrite (proj2 (Z.ltb_ge 0 n)). }
    destruct sequence as [n|]; [destruct (0 <? n); [done|]|];
      rewrite !length_app, Hdate, medCode_length, doseNum_length;
      unfold JS.toUpperCase; rewrite length_map; simpl; lia.
  - intros n -> Hn. unfold generateQRCode.
    rewrite (proj2 (Z.ltb_lt 0 n)) by lia.
    rewrite !length_app, twoDigits_length, Hdate, medCode_length, doseNum_length by lia.
    unfold JS.toUpperCase. rewrite length_map. simpl. lia.
Qed.

(** The code of the documentation, with sequence number 2, has width 20. *)
Lemma generateQRCode_width_amlodipine :
  String.length
    (generateQRCode "BL" {| getFullYear := 2026; getMonth := 1; getDate := 5 |}
       "Amlodipine" "5mg" (Some 2)) = 20%nat.
Proof.
  apply (proj2 (generateQRCode_width "BL"
                  {| getFullYear := 2026; getMonth := 1; getDate := 5 |}
                  "Amlodipine" "5mg" (Some 2) eq_refl
                  ltac:(simpl; lia) ltac:(simpl; lia) ltac:(simpl; lia)) 2 eq_refl).
  lia.
Defined.

End CodeFields.

(** ** The format of a composite code *)

Section CodeFormat.

Lemma padStart_twoDigits (n : Z) :
  0 <= n <= 99 -> JS.padStart 2 "0" (JS.ofInt n) = twoDigits n.
Proof.
  intros Hn.
  pose (P := fun z => bool_decide (JS.padStart 2 "0" (JS.ofInt z) = twoDigits z)).
  assert (P n = true) as HP; [|by apply bool_decide_eq_true in HP].
  apply (forallb_seqZ P 0 100); [by vm_compute | lia].
Qed.

Lemma pretty_N_go_suffix (x : N) (s : string) :
  exists t, pretty_N_go x s = t +:+ s.
Proof.
  revert s. induction (N.lt_wf_0 x) as [x _ IH]; intros s.
  assert (x = 0 \/ 0 < x)%N as [-> | Hpos] by lia.
  - exists "". by rewrite pretty_N_go_0.
  - rewrite pretty_N_go_step by done.
    assert (Hlt : (x `div` 10 < x)%N) by (apply N.div_lt; lia).
    destruct (IH _ Hlt (String (pretty_N_char (x `mod` 10)) s)) as [t ->].
    exists (t +:+ String (pretty_N_char (x `mod` 10)) "").
    by rewrite sapp_assoc.
Qed.

Lemma drop_length_app (t s : string) : JS.drop (String.length t) (t +:+ s) = s.
Proof. induction t as [|c t IH]; [by destruct s | exact IH]. Qed.

Lemma sliceLast_app (t s : string) :
  JS.sliceLast (String.length s) (t +:+ s) = s.
Proof.
  unfold JS.sliceLast. rewrite length_app.
  replace (_ + _ - _)%nat with (String.length t) by lia. apply drop_length_app.
Qed.

Lemma pretty_N_char_digitChar (x : N) :
  (x < 10)%N -> pretty_N_char x = digitChar (Z.of_N x).
Proof.
  intros Hx. unfold digitChar. rewrite N2Z.id.
  assert (x = 0 \/ x = 1 \/ x = 2 \/ x = 3 \/ x = 4 \/ x = 5 \/ x = 6 \/
          x = 7 \/ x = 8 \/ x = 9)%N as Hcases by lia.
  destruct_or!; subst; reflexivity.
Qed.

Lemma sliceLast_ofInt (y : Z) :
  10 <= y -> JS.sliceLast 2 (JS.ofInt y) = twoDigits (y mod 100).
Proof.
  intros Hy. destruct y as [|p|p]; [lia| |lia].
  unfold JS.ofInt, pretty, pretty_Z, pretty, pretty_positive, pretty, pretty_N.
  rewrite decide_False by done.
  rewrite pretty_N_go_step by lia.
  rewrite pretty_N_go_step by (apply N.div_str_pos; lia).
  destruct (pretty_N_go_suffix ((N.pos p `div` 10) `div` 10)
    (String (pretty_N_char ((N.pos p `div` 10) `mod` 10))
       (String (pretty_N_char (N.pos p `mod` 10)) ""))) as [t ->].
  rewrite (sliceLast_app t (String _ (String _ ""))).
  rewrite !pretty_N_char_digitChar by (apply N.mod_lt; lia).
  unfold twoDigits. f_equal; [|f_equal]; f_equal.
  - rewrite N2Z.inj_mod, N2Z.inj_div. change (Z.of_N (N.pos p)) with (Z.pos p).
    change (Z.of_N 10) with 10. Z.div_mod_to_equations. lia.
  - rewrite N2Z.inj_mod. change (Z.of_N (N.pos p)) with (Z.pos p).
    change (Z.of_N 10) with 10. Z.div_mod_to_equations. lia.
Qed.

Lemma dateStr_fields (date : JSDate) :
  0 <= getMonth date <= 11 -> 1 <= getDate date <= 31 ->
  10 <= getFullYear date ->
  dateStr date =
    twoDigits (getMonth date + 1) +:+ twoDigits (getDate date) +:+
    twoDigits (getFullYear date mod 100).
Proof.
  intros Hm Hd Hy. unfold dateStr.
  by rewrite !padStart_twoDigits, sliceLast_ofInt by lia.
Qed.

Lemma medCode_cut (medicationName : string) :
  medCode medicationName =
    JS.substring0 4
      (JS.toUpperCase (JS.filter JS.isAlnum medicationName) +:+ "XXXX").
Proof.
  unfold medCode.
  by destruct (JS.filter JS.isAlnum medicationName) as [|c1 [|c2 [|c3 [|c4 r]]]].
Qed.

Lemma splitFirst_upTo (d : ascii) (s : string) : upTo d s (JS.splitFirst d s).
Proof.
  unfold upTo, JS.splitFirst. induction s as [|c s [IH1 IH2]]; simpl; [by auto|].
  destruct (JS.isChar d c) eqn:Hc; simpl.
  - split; [done|]. right. exists s. apply isChar_eq in Hc. by subst.
  - destruct (JS.span _ s) as [a b]. simpl in *. rewrite Hc, IH1.
    split; [done|]. destruct IH2 as [-> | [r ->]]; [by left | right; by exists r].
Qed.

Lemma upTo_splitFirst (d : ascii) (s a : string) :
  upTo d s a -> JS.splitFirst d s = a.
Proof.
  unfold JS.splitFirst. intros [Ha Hs]. revert s Hs.
  induction a as [|c a IH]; intros s Hs.
  - destruct Hs as [-> | [r ->]]; [done|]. simpl.
    assert (JS.isChar d d = true) as -> by by apply isChar_eq. done.
  - simpl in Ha. apply andb_true_iff in Ha as [Hc Ha].
    apply negb_true_iff in Hc.
    destruct Hs as [-> | [r ->]]; simpl; rewrite Hc.
    + specialize (IH Ha a (or_introl eq_refl)).
      destruct (JS.span _ a) as [x y]. simpl in *. by subst.
    + specialize (IH Ha _ (or_intror (ex_intro _ r eq_refl))).
      simpl.
      destruct (JS.span _ (a +:+ String d r)) as [x y]. simpl in *. by subst.
Qed.

Lemma filter_agree (p q : ascii -> bool) (s : string) :
  allOf (fun c => eqb (p c) (q c)) s = true -> JS.filter p s = JS.filter q s.
Proof.
  induction s as [|c s IH]; simpl; [done|].
  intros [Hc Hs]%andb_true_iff. apply eqb_prop in Hc. by rewrite Hc, IH.
Qed.

Lemma doseNum_upTo (dosage a : string) :
  upTo "." dosage a -> doseNum dosage = firstTwo (JS.filter JS.isDigit a).
Proof.
  intros [Ha Hs].
  assert (Hfilter :
    JS.filter (fun c => JS.isDigit c || JS.isChar "." c) a = JS.filter JS.isDigit a).
  { apply filter_agree. revert Ha. apply allOf_impl. intros c Hc.
    apply negb_true_iff in Hc. rewrite Hc. by destruct (JS.isDigit c). }
  assert (Hdigits : upTo "."
    (JS.filter (fun c => JS.isDigit c || JS.isChar "." c) dosage)
    (JS.filter JS.isDigit a)).
  { split.
    - eapply allOf_impl, allOf_filter. intros c Hc.
      by destruct c as [[] [] [] [] [] [] [] []].
    - destruct Hs as [-> | [r ->]]; [by left|]. right.
      exists (JS.filter (fun c => JS.isDigit c || JS.isChar "." c) r).
      by rewrite sfilter_app, Hfilter. }
  unfold doseNum. rewrite (upTo_splitFirst _ _ _ Hdigits).
  by destruct (JS.filter JS.isDigit a) as [|c1 [|c2 r]].
Qed.

(** C8. [generateQRCode] joins with [-] the upper-cased lot code, the date as
    MMDDYY, a medication code of four characters and a dose code of two, and
    appends the sequence number padded to two digits only when it is positive.
    The date is the two digits of the month, of the day and of the year; the
    medication code is the first four of the upper-cased letters and digits
    of the name followed by [XXXX]; the dose code is the first two of the
    digits that come before the first dot of the dosage, padded on the left
    with [0], so a dosage of three digits or more loses its tail. The lot
    code is ASCII text, the date a calendar date and the sequence number an
    integer below 2^53. *)
Theorem generateQRCode_format :
  let feb5 := {| getFullYear := 2026; getMonth := 1; getDate := 5 |} in
  let nov23 := {| getFullYear := 2031; getMonth := 10; getDate := 23 |} in
  generateQRCode "BL" feb5 "Amlodipine" "5mg" None = "BL-020526-AMLO-05" /\
  generateQRCode "BL" feb5 "Amlodipine" "5mg" (Some 2) = "BL-020526-AMLO-05-02" /\
  generateQRCode "BL" feb5 "Amlodipine" "5mg" (Some 0) = "BL-020526-AMLO-05" /\
  generateQRCode "cr" nov23 "Zinc" "12.5 mg" (Some 12) = "CR-112331-ZINC-12-12" /\
  generateQRCode "a" nov23 "ASA" "2.5mg" (Some 100) = "A-112331-ASAX-02-100" /\
  medCode "Zinc" = "ZINC" /\ medCode "ASA" = "ASAX" /\
  doseNum "500mg" = "50" /\ doseNum "50mg" = "50" /\
  doseNum "2.5mg" = "02" /\ doseNum "0.25" = "00" /\ doseNum "12.75" = "12" /\
  (forall lotCode date medicationName dosage sequence,
     isAscii lotCode = true -> printable sequence ->
     generateQRCode lotCode date medicationName dosage sequence =
       JS.toUpperCase lotCode +:+ "-" +:+ dateStr date +:+ "-" +:+
       medCode medicationName +:+ "-" +:+ doseNum dosage +:+
       match sequence with
       | Some n =>
           if 0 <? n
           then "-" +:+ (if n <? 100 then twoDigits n else JS.ofInt n)
           else ""
       | None => ""
       end) /\
  (forall date,
     0 <= getMonth date <= 11 -> 1 <= getDate date <= 31 ->
     10 <= getFullYear date ->
     dateStr date =
       twoDigits (getMonth date + 1) +:+ twoDigits (getDate date) +:+
       twoDigits (getFullYear date mod 100)) /\
  (forall medicationName,
     String.length (medCode medicationName) = 4%nat /\
     medCode medicationName =
       JS.substring0 4
         (JS.toUpperCase (JS.filter JS.isAlnum medicationName) +:+ "XXXX")) /\
  (forall d s,
     upTo d s (JS.splitFirst d s) /\
     forall a, upTo d s a -> a = JS.splitFirst d s) /\
  (forall dosage integerPart,
     upTo "." dosage integerPart ->
     let digits := JS.filter JS.isDigit integerPart in
     String.length (doseNum dosage) = 2%nat /\
     doseNum dosage = firstTwo digits /\
     ((2 < String.length digits)%nat -> doseNum dosage <> digits)).
Proof.
  cbv zeta. split_and!; try reflexivity.
  - intros lotCode date medicationName dosage sequence _ _.
    unfold generateQRCode.
    destruct sequence as [n|]; [|by rewrite ?sapp_nil_r, ?sapp_assoc].
    destruct (0 <? n) eqn:Hpos; [|by rewrite ?sapp_nil_r, ?sapp_assoc].
    destruct (n <? 100) eqn:Hn.
    + rewrite padStart_twoDigits by lia. by rewrite ?sapp_assoc.
    + replace (JS.padStart 2 "0" (JS.ofInt n)) with (JS.ofInt n);
        [by rewrite ?sapp_assoc|].
      unfold JS.padStart. destruct n as [|p|p]; [done| |done].
      unfold JS.ofInt, pretty, pretty_Z, pretty, pretty_positive, pretty, pretty_N.
      rewrite decide_False by done.
      rewrite pretty_N_go_step by lia.
      rewrite pretty_N_go_step by (apply N.div_str_pos; lia).
      destruct (pretty_N_go_suffix ((N.pos p `div` 10) `div` 10)
        (String (pretty_N_char ((N.pos p `div` 10) `mod` 10))
           (String (pretty_N_char (N.pos p `mod` 10)) ""))) as [t ->].
      rewrite length_app. simpl.
      by replace (2 - _)%nat with 0%nat by lia.
  - apply dateStr_fields.
  - intros medicationName. split; [apply medCode_length | apply medCode_cut].
  - intros d s. split; [apply splitFirst_upTo|].
    intros a Ha. symmetry. by apply upTo_splitFirst.
  - intros dosage integerPart Hup.
    split_and!; [apply doseNum_length | by apply doseNum_upTo |].
    intros Hlen Heq. pose proof (doseNum_length dosage) as H2.
    rewrite Heq in H2. lia.
Qed.

End CodeFormat.

(** ** Trimming *)

Section Trim.

Lemma trimStart_spaces (ws t : string) :
  allOf JS.isSpace ws = true -> JS.trimStart (ws +:+ t) = JS.trimStart t.
Proof.
  unfold JS.trimStart. induction ws as [|c ws IH]; [done|]. simpl.
  intros [Hc Hws]%andb_true_iff.
  change (String c ws +:+ t) with (String c (ws +:+ t)). simpl. rewrite Hc.
  specialize (IH Hws). by destruct (JS.span JS.isSpace (ws +:+ t)).
Qed.

Lemma trimStart_head (c : ascii) (r : string) :
  JS.isSpace c = false -> JS.trimStart (String c r) = String c r.
Proof. intros Hc. unfold JS.trimStart. simpl. by rewrite Hc. Qed.

Lemma trimStart_space (c : ascii) (r : string) :
  JS.isSpace c = true -> JS.trimStart (String c r) = JS.trimStart r.
Proof.
  intros Hc. unfold JS.trimStart. simpl. rewrite Hc.
  by destruct (JS.span JS.isSpace r).
Qed.

Lemma trimEnd_spaces (ws : string) :
  allOf JS.isSpace ws = true -> JS.trimEnd ws = "".
Proof.
  induction ws as [|c ws IH]; simpl; [done|].
  intros [Hc Hws]%andb_true_iff. by rewrite IH, Hc.
Qed.

Lemma trimEnd_app (t ws : string) :
  allOf JS.isSpace ws = true -> JS.trimEnd (t +:+ ws) = JS.trimEnd t.
Proof.
  intros Hws. induction t as [|c t IH].
  - change ("" +:+ ws) with ws. by rewrite trimEnd_spaces.
  - change (String c t +:+ ws) with (String c (t +:+ ws)). simpl. by rewrite IH.
Qed.

Lemma trim_app_r (s ws : string) :
  allOf JS.isSpace ws = true -> JS.trim (s +:+ ws) = JS.trim s.
Proof.
  intros Hws. unfold JS.trim. induction s as [|c s IH].
  - change ("" +:+ ws) with ws.
    rewrite <- (sapp_nil_r ws), trimStart_spaces by done. done.
  - change (String c s +:+ ws) with (String c (s +:+ ws)).
    destruct (JS.isSpace c) eqn:Hc.
    + rewrite !trimStart_space by done. exact IH.
    + rewrite !trimStart_head by done.
      change (String c (s +:+ ws)) with (String c s +:+ ws).
      by apply trimEnd_app.
Qed.

Lemma trim_spaces (ws1 s ws2 : string) :
  allOf JS.isSpace ws1 = true -> allOf JS.isSpace ws2 = true ->
  JS.trim (ws1 +:+ s +:+ ws2) = JS.trim s.
Proof.
  intros H1 H2. rewrite <- (trim_app_r s ws2 H2).
  unfold JS.trim. by rewrite trimStart_spaces.
Qed.

Lemma trim_map (f : ascii -> ascii) (s : string) :
  (forall c, JS.isSpace (f c) = JS.isSpace c) ->
  JS.trim (JS.map f s) = JS.map f (JS.trim s).
Proof.
  intros Hf.
  assert (forall t, JS.isEmpty (JS.map f t) = JS.isEmpty t) as Hempty
    by by intros [|? ?].
  assert (forall t, JS.trimEnd (JS.map f t) = JS.map f (JS.trimEnd t)) as Hend.
  { induction t as [|c t IH]; simpl; [done|].
    rewrite IH, Hf, Hempty. by destruct (JS.isSpace c && JS.isEmpty (JS.trimEnd t)). }
  assert (forall t, JS.trimStart (JS.map f t) = JS.map f (JS.trimStart t)) as Hstart.
  { unfold JS.trimStart. induction t as [|c t IH]; simpl; [done|].
    rewrite Hf. destruct (JS.isSpace c); [|done].
    by destruct (JS.span JS.isSpace (JS.map f t)), (JS.span JS.isSpace t). }
  unfold JS.trim. by rewrite Hstart, Hend.
Qed.

Lemma tooShort_trim (query : string) :
  JS.isEmpty query || (JS.length (JS.trim query) <? 2) =
  (JS.length (JS.trim query) <? 2).
Proof. by destruct query. Qed.

End Trim.

(** ** Dosage strings, the primary grammar and the result *)

Section DosageMore.

Lemma parseFloat_nonneg (num : string) : (0 <= parseFloat num)%Q.
Proof.
  unfold parseFloat. destruct (JS.span JS.isDigit num) as [int r].
  rewrite Qred_correct. unfold Qle. simpl. lia.
Qed.

(** X9. An ASCII text that, trimmed, is a numeral, ASCII white space and a
    unit of letters and slashes is parsed by the primary grammar: the unit
    is the whole unit, slashes included, or ["unit"] when there is none, and
    the strength is the value of the numeral when that is a number of double
    precision (and its rounding, which is not modelled, otherwise). *)
Theorem parseDosage_primary (dosage num unit : string) :
  isAscii dosage = true ->
  WholeDosage (JS.trim dosage) num unit ->
  QRCode.strengthUnit (parseDosage dosage) =
    (if JS.isEmpty unit then "unit" else unit) /\
  (exactDouble (parseFloat num) ->
   parseDosage dosage =
     {| QRCode.strength := parseFloat num;
        QRCode.strengthUnit := if JS.isEmpty unit then "unit" else unit |}).
Proof.
  intros _ Hwhole. unfold parseDosage.
  rewrite (matchPrimary_whole _ _ _ Hwhole). by destruct unit.
Qed.

(** A strength with a fraction and a unit with a slash. *)
Lemma parseDosage_primary_per_ml :
  isAscii " 2.5 mg/ml " = true /\
  exactDouble (parseFloat "2.5") /\
  parseDosage " 2.5 mg/ml " =
    {| QRCode.strength := 5 # 2; QRCode.strengthUnit := "mg/ml" |}.
Proof.
  assert (Hhalves : exactDouble (parseFloat "2.5")).
  { exists 5, (-1). split_and!; [reflexivity | lia | lia | reflexivity]. }
  assert (Hwhole : WholeDosage (JS.trim " 2.5 mg/ml ") "2.5" "mg/ml").
  { exists " ". split_and!; try reflexivity.
    exists "2". split_and!; try reflexivity; try discriminate.
    right. exists "5". split_and!; try reflexivity; discriminate. }
  split_and!; [reflexivity | exact Hhalves |].
  exact (proj2 (parseDosage_primary " 2.5 mg/ml " "2.5" "mg/ml" eq_refl Hwhole)
           Hhalves).
Defined.

(** X10. Whatever the text, [parseDosage] returns a strength that is not
    negative and a unit that is not empty and is made of letters and
    slashes. *)
Theorem parseDosage_result (dosage : string) :
  (0 <= QRCode.strength (parseDosage dosage))%Q /\
  QRCode.strengthUnit (parseDosage dosage) <> "" /\
  allOf isUnitChar (QRCode.strengthUnit (parseDosage dosage)) = true.
Proof.
  unfold parseDosage.
  destruct (matchPrimary (JS.trim dosage)) as [[m1 m2]|] eqn:Hprimary.
  - apply matchPrimary_spec in Hprimary as (unit & (ws & _ & _ & Hunit & _) & ->).
    simpl. split; [apply parseFloat_nonneg|].
    destruct unit as [|c unit]; simpl; [done|]. split; [done|]. exact Hunit.
  - destruct (matchComplex (JS.trim dosage)) as [[m1 m2]|] eqn:Hcomplex.
    + apply matchComplex_spec in Hcomplex
        as (ws & rest & _ & _ & Hunit & Hne & _).
      simpl. split_and!; [apply parseFloat_nonneg | done |].
      eapply allOf_impl, Hunit. intros c Hc. unfold isUnitChar. by rewrite Hc.
    + simpl. split_and!; done.
Qed.

(** X11. White space around a dosage text does not change what
    [parseDosage] returns. *)
Theorem parseDosage_spaces (ws1 dosage ws2 : string) :
  allOf JS.isSpace ws1 = true -> allOf JS.isSpace ws2 = true ->
  parseDosage (ws1 +:+ dosage +:+ ws2) = parseDosage dosage.
Proof. intros H1 H2. unfold parseDosage. by rewrite trim_spaces. Qed.

Lemma parseDosage_spaces_500mg :
  parseDosage "  500mg " = parseDosage "500mg".
Proof. apply (parseDosage_spaces "  " "500mg" " "); reflexivity. Defined.

End DosageMore.

(** ** The queries of the searches *)

Section Queries.
Context `{Host}.
Implicit Types (s : Store) (rs : list DrugSearchResult) (d : DrugRow) (u : UnitRow).

(** X12. White space around a query changes the result of neither
    search. *)
Theorem search_query_spaces s (ws1 query ws2 clinicId : string) :
  allOf JS.isSpace ws1 = true -> allOf JS.isSpace ws2 = true ->
  searchDrugs s (ws1 +:+ query +:+ ws2) clinicId = searchDrugs s query clinicId /\
  searchMedicationsByName s (ws1 +:+ query +:+ ws2) clinicId =
    searchMedicationsByName s query clinicId.
Proof.
  intros H1 H2. unfold searchDrugs, searchMedicationsByName.
  by rewrite !tooShort_trim, !trim_spaces.
Qed.

Lemma searchMedicationsByName_normalized s (q1 q2 clinicId : string) :
  JS.length (JS.trim q1) = JS.length (JS.trim q2) ->
  JS.toLowerCase (JS.trim q1) = JS.toLowerCase (JS.trim q2) ->
  searchMedicationsByName s q1 clinicId = searchMedicationsByName s q2 clinicId.
Proof.
  intros Hlen Hlower. unfold searchMedicationsByName.
  by rewrite !tooShort_trim, Hlen, Hlower.
Qed.

(** X13. [searchMedicationsByName] does not depend on the case of a query
    in ASCII. *)
Theorem searchMedicationsByName_query_case s (query clinicId : string) :
  isAscii query = true ->
  searchMedicationsByName s (JS.toUpperCase query) clinicId =
    searchMedicationsByName s query clinicId /\
  searchMedicationsByName s (JS.toLowerCase query) clinicId =
    searchMedicationsByName s query clinicId.
Proof.
  intros _. split; apply searchMedicationsByName_normalized.
  - unfold JS.toUpperCase, JS.length.
    by rewrite (trim_map JS.upperChar), length_map by apply isSpace_upperChar.
  - unfold JS.toUpperCase.
    rewrite (trim_map JS.upperChar) by apply isSpace_upperChar.
    apply toLowerCase_toUpperCase.
  - unfold JS.toLowerCase, JS.length.
    by rewrite (trim_map JS.lowerChar), length_map by apply isSpace_lowerChar.
  - unfold JS.toLowerCase at 2.
    rewrite (trim_map JS.lowerChar) by apply isSpace_lowerChar.
    apply toLowerCase_idemp.
Qed.

End Queries.

(** ** Where the results come from *)

Section Provenance.
Context `{Host}.
Implicit Types (s : Store) (rs : list DrugSearchResult) (d : DrugRow) (u : UnitRow).

Lemma selectUnits_stocked s clinicId u :
  u ∈ rowsOf (selectUnits s clinicId) -> stocked s clinicId u.
Proof.
  unfold selectUnits, response, rowsOf, stocked, inStock.
  destruct (units_readable s); simpl; [|by intros ?%elem_of_nil].
  intros [[Hclinic Hqty]%andb_true_iff Hin]%list_elem_of_filter.
  apply bool_decide_eq_true in Hclinic. apply Z.ltb_lt in Hqty. done.
Qed.

Lemma selectDrugsOr_drugs s text n d :
  d ∈ rowsOf (limit n (selectDrugsOr s text)) -> d ∈ drugs s.
Proof.
  unfold selectDrugsOr, response, limit, rowsOf.
  destruct (orFilter s text) as [p|]; simpl; [|by intros ?%elem_of_nil].
  destruct (drugs_readable s); simpl; [|by intros ?%elem_of_nil].
  intros Hd%elem_of_take_1. by apply list_elem_of_filter in Hd as [_ ?].
Qed.

Lemma inventoryMatch_true (query : string) d :
  inventoryMatch (JS.trim query) (normalizeNDC (JS.trim query)) d = Return true ->
  matchesQuery query d.
Proof.
  unfold inventoryMatch, matchesQuery.
  destruct (ndc_id d) as [ndc|]; simpl; [|done].
  destruct (JS.includes (JS.toLowerCase (medication_name d)) _) eqn:Hname; simpl.
  { intros _. right. by left. }
  destruct (generic_name d) as [g|]; simpl; [|done].
  intros [= [Hndc | Hgeneric]%orb_true_iff].
  - left. by exists ndc.
  - right. right. by exists g.
Qed.

Lemma inventoryMatch_throw (q n : string) d e :
  inventoryMatch q n d = Throw e ->
  e = TypeError /\ (ndc_id d = None \/ generic_name d = None).
Proof.
  unfold inventoryMatch. destruct (ndc_id d); simpl; [|intros [= <-]; auto].
  destruct (JS.includes (JS.toLowerCase (medication_name d)) _); simpl; [done|].
  destruct (generic_name d); simpl; [done | intros [= <-]; auto].
Qed.

Lemma inventoryLoop_throw (q n : string) (rows : list UnitRow) acc e :
  inventoryLoop q n rows acc = Throw e ->
  e = TypeError /\
  exists u d, u ∈ rows /\ drug u = Some d /\
              (ndc_id d = None \/ generic_name d = None).
Proof.
  revert acc. induction rows as [|u0 rows IH]; intros acc; simpl; [done|].
  destruct (drug u0) as [d0|] eqn:Hdrug.
  - destruct (inventoryMatch q n d0) as [b|e0] eqn:Hmatch; simpl.
    + intros (-> & u & d & Hin & Hu)%IH. split; [done|].
      exists u, d. split; [by right | done].
    + intros [= <-]. apply inventoryMatch_throw in Hmatch as [-> Hnull].
      split; [done|]. exists u0, d0. split; [by left | done].
  - intros (-> & u & d & Hin & Hu)%IH. split; [done|].
    exists u, d. split; [by right | done].
Qed.

Lemma searchDrugs_throw s (query clinicId : string) e :
  searchDrugs s query clinicId = Throw e ->
  e = TypeError /\
  exists u d, stocked s clinicId u /\ drug u = Some d /\
              (ndc_id d = None \/ generic_name d = None).
Proof.
  unfold searchDrugs.
  destruct (JS.isEmpty query || _); [done|].
  destruct (selectUnits s clinicId) as [rows|] eqn:Hrows; simpl; [|done].
  destruct (inventoryLoop _ _ rows _) as [acc|e0] eqn:Hloop; simpl; [done|].
  intros [= <-]. apply inventoryLoop_throw in Hloop as (-> & u & d & Hin & Hu).
  split; [done|]. exists u, d. split; [|done].
  apply selectUnits_stocked. by rewrite Hrows.
Qed.

(** X14. [searchDrugs] throws nothing but a TypeError, and only when a unit
    of the clinic with stock has a drug without NDC or without generic name;
    when every drug in stock at the clinic has both, it returns. *)
Theorem searchDrugs_returns s (query clinicId : string) :
  (forall e,
     searchDrugs s query clinicId = Throw e ->
     e = TypeError /\
     exists u d, stocked s clinicId u /\ drug u = Some d /\
                 (ndc_id d = None \/ generic_name d = None)) /\
  ((forall u d, stocked s clinicId u -> drug u = Some d ->
      is_Some (ndc_id d) /\ is_Some (generic_name d)) ->
   exists rs, searchDrugs s query clinicId = Return rs).
Proof.
  split; [apply searchDrugs_throw|].
  intros Hfields.
  destruct (searchDrugs s query clinicId) as [rs|e] eqn:Hsearch; [by exists rs|].
  apply searchDrugs_throw in Hsearch as (_ & u & d & Hu & Hd & Hnull).
  destruct (Hfields u d Hu Hd) as [[ndc Hndc] [g Hg]].
  destruct Hnull; congruence.
Qed.

Lemma elem_of_sublist_of {A} (x : A) (l k : list A) :
  l `sublist_of` k -> x ∈ l -> x ∈ k.
Proof.
  induction 1 as [|y l k _ IH|y l k _ IH]; [done|..].
  - intros [-> | Hx]%elem_of_cons; [left | right; auto].
  - intros Hx. right. auto.
Qed.

Lemma elem_of_searchDrugs s (query clinicId : string) rs r :
  searchDrugs s query clinicId = Return rs -> r ∈ rs ->
  r ∈ searchDrugsEntries s query clinicId.
Proof.
  intros ->%searchDrugs_entries Hr%elem_of_take_1.
  eapply elem_of_sublist_of; [|exact Hr]. apply keepFirst_sublist.
Qed.

Lemma elem_of_searchMedications s (query clinicId : string) r :
  r ∈ searchMedicationsByName s query clinicId ->
  r ∈ searchMedicationsEntries s query clinicId.
Proof.
  rewrite searchMedications_entries. intros Hr%elem_of_take_1.
  rewrite sort_perm in Hr.
  eapply elem_of_sublist_of; [|exact Hr]. apply keepFirst_sublist.
Qed.

(** X15. Every entry that [searchDrugs] returns as in the inventory is the
    drug of a unit of the requested clinic with stock, and the digits of the
    trimmed query are found in the digits of its NDC (as they are whenever
    the query has no digit) or the trimmed query is found in one of its
    names, case apart; every other entry is a row of the catalog. *)
Theorem searchDrugs_provenance s (query clinicId : string) rs r :
  searchDrugs s query clinicId = Return rs -> r ∈ rs ->
  if inInventory r
  then exists u d, stocked s clinicId u /\ drug u = Some d /\
                   r = toResult d true /\ matchesQuery query d
  else exists d, d ∈ drugs s /\ r = toResult d false.
Proof.
  intros Hrs Hr. pose proof (elem_of_searchDrugs _ _ _ _ _ Hrs Hr) as Hentry.
  unfold searchDrugsEntries in Hentry.
  destruct (tooShort query); [by apply elem_of_nil in Hentry|].
  apply elem_of_app in Hentry as [Hinv | Hcat].
  - apply list_elem_of_omap in Hinv as (u & Hu & Hmatch).
    destruct (drug u) as [d|] eqn:Hdrug; [|done].
    destruct (inventoryMatch _ _ d) as [[|]|] eqn:Hd; [|done..].
    injection Hmatch as <-. simpl. exists u, d.
    split_and!; [by apply selectUnits_stocked | done.. |].
    by apply inventoryMatch_true.
  - apply list_elem_of_fmap in Hcat as (d & -> & Hd). simpl.
    exists d. split; [|done]. by eapply selectDrugsOr_drugs.
Qed.

(** X16. Every entry that [searchMedicationsByName] returns as in the
    inventory is the drug of a unit of the requested clinic with stock whose
    medication name or generic name contains the query, case apart; every
    other entry is a row of the catalog. *)
Theorem searchMedicationsByName_provenance s (query clinicId : string) r :
  r ∈ searchMedicationsByName s query clinicId ->
  if inInventory r
  then exists u d, stocked s clinicId u /\ drug u = Some d /\
                   r = toResult d true /\
                   nameMatch (JS.toLowerCase (JS.trim query)) d = true
  else exists d, d ∈ drugs s /\ r = toResult d false.
Proof.
  intros Hentry%elem_of_searchMedications.
  unfold searchMedicationsEntries in Hentry.
  destruct (tooShort query); [by apply elem_of_nil in Hentry|].
  apply elem_of_app in Hentry as [Hinv | Hcat].
  - apply list_elem_of_omap in Hinv as (u & Hu & Hmatch).
    destruct (drug u) as [d|] eqn:Hdrug; [|done].
    destruct (nameMatch _ d) eqn:Hd; [|done].
    injection Hmatch as <-. simpl. exists u, d.
    split_and!; [by apply selectUnits_stocked | done..].
  - apply list_elem_of_fmap in Hcat as (d & -> & Hd). simpl.
    exists d. split; [|done]. by eapply selectDrugsOr_drugs.
Qed.

End Provenance.

(** ** Failed reads, and what deduplication keeps *)

Section Absorbed.
Context `{Host}.
Implicit Types (s : Store) (rs : list DrugSearchResult) (d : DrugRow) (u : UnitRow).

Lemma selectUnits_unreadable s clinicId :
  units_readable s = false -> selectUnits s clinicId = None.
Proof. unfold selectUnits, response. by intros ->. Qed.

Lemma selectDrugsOr_unreadable s text :
  drugs_readable s = false -> selectDrugsOr s text = None.
Proof.
  unfold selectDrugsOr, response. intros ->. by destruct (orFilter s text).
Qed.

Lemma Forall_keepFirst {K} `{Countable K} (key : DrugSearchResult -> K)
    (P : DrugSearchResult -> Prop) (n : nat) (l : list DrugSearchResult) :
  Forall P l -> Forall P (take n (keepFirst key ∅ l)).
Proof.
  intros Hl. eapply Forall_sublist_of; [|exact Hl].
  etrans; [apply sublist_take | apply keepFirst_sublist].
Qed.

(** X17. A failed read is absorbed.  When the units cannot be read,
    [searchDrugs] still returns and returns entries of the catalog only;
    when the catalog cannot be read, what it returns is in the inventory;
    when neither can be read it returns nothing.  The same holds of
    [searchMedicationsByName]. *)
Theorem search_read_failures s (query clinicId : string) :
  (units_readable s = false ->
   (exists rs, searchDrugs s query clinicId = Return rs /\
               Forall (fun r => inInventory r = false) rs) /\
   Forall (fun r => inInventory r = false)
          (searchMedicationsByName s query clinicId)) /\
  (drugs_readable s = false ->
   (forall rs, searchDrugs s query clinicId = Return rs ->
               Forall (fun r => inInventory r = true) rs) /\
   Forall (fun r => inInventory r = true)
          (searchMedicationsByName s query clinicId)) /\
  (units_readable s = false -> drugs_readable s = false ->
   searchDrugs s query clinicId = Return [] /\
   searchMedicationsByName s query clinicId = []).
Proof.
  split_and!.
  - intros Hunits. split.
    + destruct (searchDrugs s query clinicId) as [rs|e] eqn:Hsearch.
      * exists rs. split; [done|].
        apply searchDrugs_entries in Hsearch as ->. apply Forall_keepFirst.
        unfold searchDrugsEntries. destruct (tooShort query); [done|].
        rewrite selectUnits_unreadable by done. apply catalogEntries_spec.
      * exfalso. revert Hsearch. unfold searchDrugs.
        rewrite selectUnits_unreadable by done. by destruct (_ || _).
    + rewrite searchMedications_entries.
      eapply Forall_sublist_of; [apply sublist_take|]. rewrite sort_perm.
      eapply Forall_sublist_of; [apply keepFirst_sublist|].
      unfold searchMedicationsEntries. destruct (tooShort query); [done|].
      rewrite selectUnits_unreadable by done. apply catalogEntries_spec.
  - intros Hdrugs. split.
    + intros rs ->%searchDrugs_entries. apply Forall_keepFirst.
      unfold searchDrugsEntries. destruct (tooShort query); [done|].
      rewrite selectDrugsOr_unreadable by done. simpl. rewrite app_nil_r.
      eapply Forall_impl; [apply inventoryEntries_spec|]. by intros r [].
    + rewrite searchMedications_entries.
      eapply Forall_sublist_of; [apply sublist_take|]. rewrite sort_perm.
      eapply Forall_sublist_of; [apply keepFirst_sublist|].
      unfold searchMedicationsEntries. destruct (tooShort query); [done|].
      rewrite selectDrugsOr_unreadable by done. simpl. rewrite app_nil_r.
      apply inventoryNameEntries_spec.
  - intros Hunits Hdrugs. unfold searchDrugs, searchMedicationsByName.
    rewrite !selectUnits_unreadable, !selectDrugsOr_unreadable by done.
    by destruct (_ || _).
Qed.

Lemma keepFirst_complete {K} `{Countable K} (key : DrugSearchResult -> K)
    (seen : gset K) (l : list DrugSearchResult) (r : DrugSearchResult) :
  r ∈ l -> key r ∈ seen \/ key r ∈ key <$> keepFirst key seen l.
Proof.
  revert seen. induction l as [|r0 l IH]; intros seen; [by intros ?%elem_of_nil|].
  simpl. intros [-> | Hr]%elem_of_cons.
  - case_bool_decide; [by left|]. right. rewrite fmap_cons. left.
  - case_bool_decide.
    + by apply IH.
    + rewrite fmap_cons. destruct (IH ({[ key r0 ]} ∪ seen) Hr) as [Hseen | Hkept].
      * apply elem_of_union in Hseen as [->%elem_of_singleton | Hseen];
          [right; left | by left].
      * right. by right.
Qed.

Lemma take_all_or_full {A} (n : nat) (l : list A) :
  take n l = l \/ length (take n l) = n.
Proof.
  destruct (decide (length l <= n)%nat).
  - left. by apply take_ge.
  - right. rewrite length_take. lia.
Qed.

(** X18. Deduplication loses no key.  Unless [searchDrugs] fills its ten
    places, the NDC of every entry offered is the NDC of a result; unless
    [searchMedicationsByName] fills its fifteen, the key of every entry
    offered is the key of a result. *)
Theorem search_keeps_every_key s (query clinicId : string) :
  (forall rs r,
     searchDrugs s query clinicId = Return rs ->
     r ∈ searchDrugsEntries s query clinicId ->
     ndcId r ∈ ndcId <$> rs \/ length rs = 10%nat) /\
  (forall r,
     r ∈ searchMedicationsEntries s query clinicId ->
     entryKey r ∈ entryKey <$> searchMedicationsByName s query clinicId \/
     length (searchMedicationsByName s query clinicId) = 15%nat).
Proof.
  split.
  - intros rs r ->%searchDrugs_entries Hr.
    destruct (take_all_or_full 10
                (keepFirst ndcId ∅ (searchDrugsEntries s query clinicId)))
      as [-> | Hfull]; [|by right].
    left. destruct (keepFirst_complete ndcId ∅ _ _ Hr) as [Hseen | Hkept];
      [set_solver | done].
  - intros r Hr. rewrite searchMedications_entries.
    destruct (take_all_or_full 15
                (sort compareResults
                   (keepFirst entryKey ∅ (searchMedicationsEntries s query clinicId))))
      as [-> | Hfull]; [|by right].
    left. rewrite sort_perm.
    destruct (keepFirst_complete entryKey ∅ _ _ Hr) as [Hseen | Hkept];
      [set_solver | done].
Qed.

End Absorbed.

(** ** searchDrugByNDC *)

Section ByNDC.
Context `{Host}.
Implicit Types (s : Store) (d : DrugRow) (u : UnitRow) (r : DrugSearchResult).

Lemma single_limit_one {A} (data : option (list A)) (row : A) :
  single (limit 1 data) = Some row <-> exists rest, data = Some (row :: rest).
Proof.
  destruct data as [[|x rest]|]; simpl.
  - split; [done | by intros (? & ?)].
  - rewrite ?take_0. split; [intros [= ->]; eauto | by intros (? & [= -> _])].
  - split; [done | by intros (? & ?)].
Qed.

Lemma selectDrugsByNdc_single s (ndc : string) d :
  single (selectDrugsByNdc s ndc) = Some d -> d ∈ drugs s /\ ndc_id d = Some ndc.
Proof. unfold selectDrugsByNdc. by intros (? & ? & _)%single_Some. Qed.

(** X19. What [searchDrugByNDC] returns carries the code asked for.  An
    entry returned as in the inventory is the drug of the first unit the
    clinic has in stock, and its NDC has the digits of the code scanned; any
    other entry is a row of the catalog whose NDC is the code as scanned. *)
Theorem searchDrugByNDC_sound s (ndc : string) (clinicId : option string) r :
  searchDrugByNDC s ndc clinicId = Return (Some r) ->
  (if inInventory r
   then exists c u rest d n,
          clinicId = Some c /\ c <> "" /\
          selectUnits s c = Some (u :: rest) /\ drug u = Some d /\
          r = toResult d true /\ ndc_id d = Some n /\
          normalizeNDC n = normalizeNDC ndc
   else exists d, d ∈ drugs s /\ r = toResult d false /\ ndc_id d = Some ndc) /\
  exists n, ndcId r = Some n /\ normalizeNDC n = normalizeNDC ndc.
Proof.
  unfold searchDrugByNDC.
  assert (match single (selectDrugsByNdc s ndc) with
          | Some d => Return (Some (toResult d false))
          | None => Return None
          end = Return (Some r) ->
          (if inInventory r
           then exists c u rest d n,
                  clinicId = Some c /\ c <> "" /\
                  selectUnits s c = Some (u :: rest) /\ drug u = Some d /\
                  r = toResult d true /\ ndc_id d = Some n /\
                  normalizeNDC n = normalizeNDC ndc
           else exists d, d ∈ drugs s /\ r = toResult d false /\
                          ndc_id d = Some ndc) /\
          exists n, ndcId r = Some n /\ normalizeNDC n = normalizeNDC ndc)
    as Hcatalog.
  { destruct (single (selectDrugsByNdc s ndc)) as [d|] eqn:Hd; [|done].
    intros [= <-]. apply selectDrugsByNdc_single in Hd as [Hd Hndc]. simpl.
    split; [by exists d | by exists ndc]. }
  destruct clinicId as [c|]; simpl; [|exact Hcatalog].
  destruct (JS.isEmpty c) eqn:Hc; simpl; [exact Hcatalog|].
  apply isEmpty_false in Hc.
  destruct (single (limit 1 (selectUnits s c))) as [u|] eqn:Hunit; simpl;
    [|exact Hcatalog].
  apply single_limit_one in Hunit as [rest Hunits].
  destruct (drug u) as [d|] eqn:Hdrug; simpl; [|exact Hcatalog].
  destruct (ndc_id d) as [n|] eqn:Hndc; simpl; [|done].
  case_bool_decide as Heq; simpl; [|exact Hcatalog].
  intros [= <-]. simpl. split; [|by exists n].
  by exists c, u, rest, d, n.
Qed.

(** X20. [searchDrugByNDC] throws exactly when a clinic is given and the
    drug of its first unit in stock has no NDC, and then a TypeError,
    whatever the code scanned and the catalog. *)
Theorem searchDrugByNDC_throws s (ndc : string) (clinicId : option string) e :
  searchDrugByNDC s ndc clinicId = Throw e <->
  e = TypeError /\
  exists c u rest d,
    clinicId = Some c /\ c <> "" /\
    selectUnits s c = Some (u :: rest) /\ drug u = Some d /\ ndc_id d = None.
Proof.
  unfold searchDrugByNDC.
  assert (match single (selectDrugsByNdc s ndc) with
          | Some d => Return (Some (toResult d false))
          | None => Return None
          end <> Throw e) as Hcatalog
    by by destruct (single (selectDrugsByNdc s ndc)).
  destruct clinicId as [c|]; simpl.
  2:{ split; [done | by intros (_ & c & ? & ? & ? & ? & _)]. }
  destruct (JS.isEmpty c) eqn:Hc; simpl.
  { apply isEmpty_true in Hc as ->.
    split; [done|]. by intros (_ & c & ? & ? & ? & [= <-] & ? & _). }
  apply isEmpty_false in Hc.
  destruct (single (limit 1 (selectUnits s c))) as [u|] eqn:Hunit; simpl.
  - apply single_limit_one in Hunit as [rest Hunits].
    destruct (drug u) as [d|] eqn:Hdrug; simpl.
    + destruct (ndc_id d) as [n|] eqn:Hndc; simpl.
      * split.
        -- by case_bool_decide.
        -- intros (_ & c' & u' & rest' & d' & [= <-] & _ & Hunits' & Hdrug' & Hnone).
           congruence.
      * split; [intros [= <-]; split; [done|]; by exists c, u, rest, d|].
        by intros [-> _].
    + split; [done|].
      intros (_ & c' & u' & rest' & d' & [= <-] & _ & Hunits' & Hdrug' & _).
      congruence.
  - split; [done|].
    intros (_ & c' & u' & rest' & d' & [= <-] & _ & Hunits' & _).
    rewrite Hunits' in Hunit. simpl in Hunit. by rewrite ?take_0 in Hunit.
Qed.

End ByNDC.

(** ** getOrCreateDrug, called again *)

Section UpsertAgain.
Context `{Host}.
Implicit Types (s : Store) (drugData : DrugData) (d : DrugRow).

Lemma single_snoc {A} (P : A -> Prop) `{!forall x, Decision (P x)}
    (l : list A) (x : A) :
  P x ->
  single (response true (filter P l)) = None ->
  single (response true (filter P (l ++ [x]))) =
    if decide (filter P l = []) then Some x else None.
Proof.
  intros Hx. rewrite filter_app, (filter_cons_True P x []) by done.
  rewrite filter_nil. simpl.
  by destruct (filter P l) as [|y [|z k]].
Qed.

Lemma similarTo_inserted drugData (id : string) :
  ilike (d_medicationName drugData) (d_medicationName drugData) = true ->
  similarTo (d_medicationName drugData) (d_strength drugData)
    (d_strengthUnit drugData) (d_form drugData)
    (inserted id (newRow drugData)) = true.
Proof.
  intros Hilike. unfold similarTo. simpl. rewrite Hilike.
  by rewrite !bool_decide_eq_true_2.
Qed.

(** X21. Called a second time with the same data, [getOrCreateDrug] returns
    the same identifier and inserts nothing, provided the catalog can be
    read and was free of the drug at first: no row had the NDC supplied, or
    no row was similar and the name matches itself under ILIKE. *)
Theorem getOrCreateDrug_again s drugData (id : string) :
  drugs_readable s = true ->
  unknownByNdc s drugData \/ unknownByName s drugData ->
  (getOrCreateDrug s drugData).1 = Return id ->
  getOrCreateDrug (getOrCreateDrug s drugData).2 drugData =
    (Return id, (getOrCreateDrug s drugData).2).
Proof.
  intros Hread Hunknown. unfold getOrCreateDrug at 1 3 4.
  destruct (existingDrug s drugData) as [d0|] eqn:Hexisting.
  { simpl. intros [= <-]. unfold getOrCreateDrug. by rewrite Hexisting. }
  destruct (similarDrug s drugData) as [d1|] eqn:Hsimilar.
  { simpl. intros [= <-]. unfold getOrCreateDrug. by rewrite Hexisting, Hsimilar. }
  destruct (insertAnswer s (newRow drugData)) as [message|id'] eqn:Hinsert;
    simpl; [done|].
  intros [= ->]. unfold getOrCreateDrug.
  set (new := inserted id (newRow drugData)).
  assert (existingDrug (withDrug s new) drugData = Some new \/
          existingDrug (withDrug s new) drugData = None /\
          unknownByName s drugData) as [Hagain | [Hagain Hname]].
  { unfold existingDrug, selectDrugsByNdc in *. simpl.
    destruct (JS.truthy (d_ndcId drugData)) as [ndc|] eqn:Hndc.
    - rewrite Hread in *.
      rewrite (single_snoc (fun d => ndc_id d = Some ndc)) by done.
      destruct Hunknown as [(ndc' & Hndc' & Hfree) | Hname].
      + left. rewrite decide_True; [done|].
        assert (ndc' = ndc) as -> by congruence.
        apply filter_none. intros d Hd. by apply Hfree.
      + case_decide; [by left | by right].
    - destruct Hunknown as [(ndc' & Hndc' & _) | Hname];
        [congruence | by right]. }
  { by rewrite Hagain. }
  rewrite Hagain.
  assert (similarDrug (withDrug s new) drugData = Some new) as ->; [|done].
  destruct Hname as [Hfree Hilike].
  unfold similarDrug, selectDrugsSimilar in *. simpl. rewrite Hread in *.
  rewrite (single_snoc (fun d => similarTo _ _ _ _ d = true))
    by (done || by apply similarTo_inserted).
  rewrite decide_True; [done|].
  apply filter_none. intros d Hd. by rewrite (Hfree d Hd).
Qed.

End UpsertAgain.

(** ** The clients of the store *)

Section Clients.
Import Supabase.

Lemma truthy_Some (o : option string) (x : string) :
  JS.truthy o = Some x -> o = Some x /\ x <> "".
Proof.
  destruct o as [y|]; simpl; [|done].
  destruct y; simpl; [done|]. by intros [= <-].
Qed.

Lemma truthy_again (o : option string) (x : string) :
  JS.truthy o = Some x -> JS.truthy (Some x) = Some x.
Proof. intros [_ Hx]%truthy_Some. by destruct x. Qed.

(** X22. Loading the store clients fails exactly when the URL is missing or
    neither key is set.  When it succeeds both clients have the URL of the
    environment and a key that is not empty: the server client has the
    service-role key when it is set and the anon key otherwise, the
    authentication client has the anon key when it is set and the
    service-role key otherwise, so that with a single key set both clients
    use it; a warning is written exactly when the anon key is missing. *)
Theorem load_outcome (env : Env) :
  (forall e,
     load env = Throw e <->
     (JS.truthy (SUPABASE_URL env) = None /\
      e = Error "Missing SUPABASE_URL environment variable") \/
     (is_Some (JS.truthy (SUPABASE_URL env)) /\
      JS.truthy (SUPABASE_SERVICE_ROLE_KEY env) = None /\
      JS.truthy (SUPABASE_ANON_KEY env) = None /\
      e = Error "Missing SUPABASE_SERVICE_ROLE_KEY or SUPABASE_ANON_KEY environment variable")) /\
  (forall m,
     load env = Return m ->
     SUPABASE_URL env = Some (clientUrl (supabaseServer m)) /\
     clientUrl (supabaseAuth m) = clientUrl (supabaseServer m) /\
     clientKey (supabaseServer m) <> "" /\ clientKey (supabaseAuth m) <> "" /\
     JS.truthy (orElse (SUPABASE_SERVICE_ROLE_KEY env) (SUPABASE_ANON_KEY env))
       = Some (clientKey (supabaseServer m)) /\
     JS.truthy (orElse (SUPABASE_ANON_KEY env) (SUPABASE_SERVICE_ROLE_KEY env))
       = Some (clientKey (supabaseAuth m)) /\
     (JS.truthy (SUPABASE_SERVICE_ROLE_KEY env) = None \/
      JS.truthy (SUPABASE_ANON_KEY env) = None ->
      clientKey (supabaseAuth m) = clientKey (supabaseServer m)) /\
     (warnings m = [] <-> is_Some (JS.truthy (SUPABASE_ANON_KEY env)))).
Proof.
  unfold load, orElse.
  destruct (JS.truthy (SUPABASE_URL env)) as [url|] eqn:Hurl.
  2:{ split; [|done]. intros e. split.
      - intros [= <-]. by left.
      - intros [[_ ->] | ([? [=]] & _)]; done. }
  destruct (JS.truthy (SUPABASE_SERVICE_ROLE_KEY env)) as [service|] eqn:Hservice;
    destruct (JS.truthy (SUPABASE_ANON_KEY env)) as [anon|] eqn:Hanon;
    rewrite ?(truthy_again _ _ Hservice), ?Hanon, ?(truthy_again _ _ Hanon), ?Hservice.
  - split; [intros e; split; [done | by intros [[[=] _] | (_ & [=] & _)]]|].
    intros m [= <-]. simpl.
    apply truthy_Some in Hurl as [-> _], Hservice as [_ ?], Hanon as [_ ?].
    split_and!;
      first [done | by intros [[=] | [=]] | split; [by eexists | done]].
  - split; [intros e; split; [done | by intros [[[=] _] | (_ & [=] & _)]]|].
    intros m [= <-]. simpl.
    apply truthy_Some in Hurl as [-> _], Hservice as [_ ?].
    split_and!; first [done | split; [done | by intros [? [=]]]].
  - split; [intros e; split; [done | by intros [[[=] _] | (_ & _ & [=] & _)]]|].
    intros m [= <-]. simpl.
    apply truthy_Some in Hurl as [-> _], Hanon as [_ ?].
    split_and!; first [done | split; [by eexists | done]].
  - split; [|done]. intros e. split.
    + intros [= <-]. right. by split_and!.
    + by intros [[[=] _] | (_ & _ & _ & ->)].
Qed.

End Clients.

(** ** The further properties on the sample store *)

Section FurtherOnSample.
Import Sample.

Lemma search_query_spaces_zinc :
  searchDrugs clinicStore "  zinc " "clinic-1" =
    searchDrugs clinicStore "zinc" "clinic-1" /\
  searchMedicationsByName clinicStore "  zinc " "clinic-1" =
    searchMedicationsByName clinicStore "zinc" "clinic-1".
Proof.
  apply (search_query_spaces clinicStore "  " "zinc" " " "clinic-1"); reflexivity.
Defined.

(** Zinc is found under ["ZINC"] as under ["zinc"]. *)
Lemma searchMedicationsByName_query_case_zinc :
  isAscii "zinc" = true /\
  searchMedicationsByName clinicStore "ZINC" "clinic-1" =
    searchMedicationsByName clinicStore "zinc" "clinic-1".
Proof.
  split; [reflexivity|].
  exact (proj1 (searchMedicationsByName_query_case clinicStore "zinc" "clinic-1"
                  eq_refl)).
Defined.

(** The zinc returned for ["2222"] is the zinc the clinic has in stock. *)
Lemma searchDrugs_provenance_zinc :
  searchDrugs clinicStore "2222" "clinic-1" = Return [toResult zinc true] /\
  exists u d,
    stocked clinicStore "clinic-1" u /\ drug u = Some d /\
    toResult zinc true = toResult d true /\ matchesQuery "2222" d.
Proof.
  split; [reflexivity|].
  apply (searchDrugs_provenance clinicStore "2222" "clinic-1"
           [toResult zinc true] (toResult zinc true)); [reflexivity | left].
Defined.

Lemma searchMedicationsByName_provenance_zinc :
  drugId <$> searchMedicationsByName clinicStore "ZINC" "clinic-1" = ["d2"; "d6"] /\
  exists u d,
    stocked clinicStore "clinic-1" u /\ drug u = Some d /\
    toResult zinc true = toResult d true /\ nameMatch "zinc" d = true.
Proof.
  split; [reflexivity|].
  apply (searchMedicationsByName_provenance clinicStore "ZINC" "clinic-1"
           (toResult zinc true)).
  assert (searchMedicationsByName clinicStore "ZINC" "clinic-1" =
          [toResult zinc true; toResult ointment false]) as -> by reflexivity.
  left.
Defined.

(** Scanning the code of the first unit in stock. *)
Lemma searchDrugByNDC_sound_aspirin :
  searchDrugByNDC clinicStore "11111111111" (Some "clinic-1") =
    Return (Some (toResult aspirin true)) /\
  exists n, ndcId (toResult aspirin true) = Some n /\
            normalizeNDC n = normalizeNDC "11111111111".
Proof.
  split; [reflexivity|].
  apply (searchDrugByNDC_sound clinicStore "11111111111" (Some "clinic-1")
           (toResult aspirin true)). reflexivity.
Defined.

(** A first unit in stock without NDC makes every scan at the clinic throw. *)
Lemma searchDrugByNDC_throws_saline :
  searchDrugByNDC (store [unitRow "u1" "clinic-1" 4 saline] catalog)
    "11111-1111-11" (Some "clinic-1") = Throw TypeError.
Proof.
  apply (searchDrugByNDC_throws
           (store [unitRow "u1" "clinic-1" 4 saline] catalog)).
  split; [done|].
  by exists "clinic-1", (unitRow "u1" "clinic-1" 4 saline), [], saline.
Defined.

(** Ibuprofen is not in the sample catalog: the first call inserts it, the
    second finds it. *)
Lemma getOrCreateDrug_again_ibuprofen :
  (getOrCreateDrug clinicStore
     (drugDataOf "Ibuprofen" None 200 "mg" None "tablet")).1
    = Return "new-Ibuprofen" /\
  getOrCreateDrug
    (getOrCreateDrug clinicStore
       (drugDataOf "Ibuprofen" None 200 "mg" None "tablet")).2
    (drugDataOf "Ibuprofen" None 200 "mg" None "tablet") =
  (Return "new-Ibuprofen",
   (getOrCreateDrug clinicStore
      (drugDataOf "Ibuprofen" None 200 "mg" None "tablet")).2).
Proof.
  split; [reflexivity|].
  apply (getOrCreateDrug_again clinicStore
           (drugDataOf "Ibuprofen" None 200 "mg" None "tablet"));
    [reflexivity | right | reflexivity].
  split; [|reflexivity]. intros d Hd.
  unfold clinicStore, store, catalog in Hd. simpl in Hd.
  repeat (apply elem_of_cons in Hd as [-> | Hd]; [reflexivity|]).
  by apply elem_of_nil in Hd.
Defined.

End FurtherOnSample.

(** ** getOrCreateDrug when its lookups give nothing *)

Section UpsertBlind.
Context `{Host}.
Implicit Types (s : Store) (drugData : DrugData) (d : DrugRow).

Lemma single_two {A} (l : list A) :
  (2 <= length l)%nat -> single (response true l) = None.
Proof. destruct l as [|x [|y l]]; simpl; (done || lia). Qed.

(** X23. When the catalog cannot be read, both lookups of [getOrCreateDrug]
    give nothing and the call goes on to insert: it returns the identifier
    of a new row, or throws when the insert fails, whether or not the drug
    is in the catalog. *)
Theorem getOrCreateDrug_unreadable s drugData :
  drugs_readable s = false ->
  getOrCreateDrug s drugData =
    match insertAnswer s (newRow drugData) with
    | inl message => (Throw (Error ("Failed to create drug: " +:+ message)), s)
    | inr id => (Return id, withDrug s (inserted id (newRow drugData)))
    end.
Proof.
  intros Hread. unfold getOrCreateDrug, existingDrug, similarDrug,
    selectDrugsByNdc, selectDrugsSimilar. rewrite Hread. simpl.
  by destruct (JS.truthy (d_ndcId drugData)).
Qed.

(** X24. Once the catalog holds a drug twice, [getOrCreateDrug] no longer
    finds it: each call whose insert succeeds adds one more row for it, and
    the catalog holds it more than once afterwards as well. *)
Theorem getOrCreateDrug_duplicates s drugData (id : string) :
  duplicated s drugData ->
  insertAnswer s (newRow drugData) = inr id ->
  getOrCreateDrug s drugData =
    (Return id, withDrug s (inserted id (newRow drugData))) /\
  duplicated (withDrug s (inserted id (newRow drugData))) drugData.
Proof.
  intros (Hread & Hndc & Hsimilar) Hinsert. split.
  - unfold getOrCreateDrug, existingDrug, similarDrug,
      selectDrugsByNdc, selectDrugsSimilar. rewrite Hread.
    destruct (JS.truthy (d_ndcId drugData)) as [ndc|];
      rewrite ?single_two, Hinsert by done; done.
  - unfold duplicated. simpl. split; [done|]. split.
    + destruct (JS.truthy (d_ndcId drugData)) as [ndc|]; [|done].
      rewrite filter_app, List.length_app. lia.
    + rewrite filter_app, List.length_app. lia.
Qed.

End UpsertBlind.

(** ** The inventory comes first *)

Section Precedence.
Context `{Host}.
Implicit Types (s : Store) (rs l : list DrugSearchResult) (r : DrugSearchResult).

Lemma keepFirst_app_later {K} `{Countable K} (key : DrugSearchResult -> K)
    (l1 l2 : list DrugSearchResult) r r' :
  r ∈ keepFirst key ∅ (l1 ++ l2) -> r ∉ l1 -> r' ∈ l1 -> key r' <> key r.
Proof.
  intros (i & Hi & Hbefore)%keepFirst_first Hnot Hin.
  apply list_elem_of_lookup in Hin as [j Hj].
  pose proof (lookup_lt_Some _ _ _ Hj) as Hlt.
  apply (Hbefore j r').
  - destruct (decide (i < length l1)%nat) as [Hil|Hil]; [|lia].
    exfalso. apply Hnot. rewrite lookup_app_l in Hi by done.
    by eapply list_elem_of_lookup_2.
  - by rewrite lookup_app_l.
Qed.

Lemma not_in_inventory l r :
  Forall (fun r => inInventory r = true) l -> inInventory r = false -> r ∉ l.
Proof.
  intros Hall Hr Hin. rewrite Forall_forall in Hall.
  specialize (Hall r Hin). congruence.
Qed.

(** X25. What is in stock is never reported as out of stock.  An entry that
    [searchDrugs] returns as out of the inventory has the NDC of no entry
    offered from the inventory, and an entry that [searchMedicationsByName]
    returns as out of the inventory has the key of none. *)
Theorem search_inventory_precedence s (query clinicId : string) :
  (forall rs r r',
     searchDrugs s query clinicId = Return rs ->
     r ∈ rs -> inInventory r = false ->
     r' ∈ searchDrugsEntries s query clinicId -> inInventory r' = true ->
     ndcId r' <> ndcId r) /\
  (forall r r',
     r ∈ searchMedicationsByName s query clinicId -> inInventory r = false ->
     r' ∈ searchMedicationsEntries s query clinicId -> inInventory r' = true ->
     entryKey r' <> entryKey r).
Proof.
  split.
  - intros rs r r' ->%searchDrugs_entries Hr%elem_of_take_1 Hout Hr' Hin.
    revert Hr Hr'. unfold searchDrugsEntries.
    destruct (tooShort query); [by intros _ ?%elem_of_nil|].
    intros Hr [Hinv | Hcat]%elem_of_app.
    + eapply keepFirst_app_later; [exact Hr| |exact Hinv].
      apply not_in_inventory; [|done].
      eapply Forall_impl; [apply inventoryEntries_spec|]. by intros ? [].
    + pose proof (catalogEntries_spec
                    (rowsOf (limit 20 (selectDrugsOr s
                       (searchDrugsFilter (JS.trim query)
                          (normalizeNDC (JS.trim query))))))) as Hall.
      rewrite Forall_forall in Hall. specialize (Hall _ Hcat). congruence.
  - intros r r'. rewrite searchMedications_entries.
    intros Hr%elem_of_take_1 Hout Hr' Hin. rewrite sort_perm in Hr.
    revert Hr Hr'. unfold searchMedicationsEntries.
    destruct (tooShort query); [by intros _ ?%elem_of_nil|].
    intros Hr [Hinv | Hcat]%elem_of_app.
    + eapply keepFirst_app_later; [exact Hr| |exact Hinv].
      apply not_in_inventory; [|done].
      apply inventoryNameEntries_spec.
    + pose proof (catalogEntries_spec
                    (rowsOf (limit 30 (selectDrugsOr s
                       (searchMedicationsFilter
                          (JS.toLowerCase (JS.trim query))))))) as Hall.
      rewrite Forall_forall in Hall. specialize (Hall _ Hcat). congruence.
Qed.

End Precedence.

(** ** On the sample store, again *)

Section BlindOnSample.
Import Sample.

(** With the catalog out of reach aspirin, which is in it, is inserted. *)
Lemma getOrCreateDrug_unreadable_aspirin :
  (getOrCreateDrug (offline clinicStore)
     (drugDataOf "Aspirin" None 81 "mg" (Some "11111-1111-11") "tablet")).1 =
  Return "new-Aspirin".
Proof.
  rewrite (getOrCreateDrug_unreadable (offline clinicStore)
             (drugDataOf "Aspirin" None 81 "mg" (Some "11111-1111-11") "tablet")
             eq_refl).
  reflexivity.
Defined.

(** Zinc twice in the catalog: a third row is inserted. *)
Lemma getOrCreateDrug_duplicates_zinc :
  (getOrCreateDrug (store [] (catalog ++ [zinc]))
     (drugDataOf "zinc" None 50 "mg" (Some "22222-2222-22") "tablet")).1 =
  Return "new-zinc".
Proof.
  rewrite (proj1 (getOrCreateDrug_duplicates (store [] (catalog ++ [zinc]))
                    (drugDataOf "zinc" None 50 "mg" (Some "22222-2222-22") "tablet")
                    "new-zinc"
                    (conj eq_refl (conj (le_n 2) (le_n 2))) eq_refl)).
  reflexivity.
Defined.

End BlindOnSample.
